(** * srv: binary-framed RPC transport

    A shallow embedding of the Go package [srv]: the metadata header codec
    (metadata.go), the connection wrapper [Client] (client.go), the endpoint
    registry and the connection dispatcher and listener of [Server]
    (server.go), followed by the properties of the design document that
    were checked against them.

    Conventions.  A Go [byte] is [Init.Byte.byte]; a Go [string] and a
    [[]byte] are [list byte]; [int64], [int] and [time.Duration] are [Z]
    with the wrap-around of the 64-bit conversions written out; a Go
    [error] is [option error] with [None] for [nil]; a Go map is
    [option (gmap _ _)] with [None] for the nil map.  A method with a
    pointer receiver returns the receiver's new state next to its
    results; a call that can panic returns a [Go.outcome].  The header
    layout is the one of metadata.go, 225 bytes with a content type.
    Logging is left out: it changes no result. *)

From Stdlib Require Import ZArith Lia List.
From Stdlib Require Import Strings.Byte.
From coqutil Require Import Byte Word.LittleEndianList.
From stdpp Require Import gmap list strings.

Local Open Scope Z_scope.

#[global] Instance byte_eq_dec : EqDecision byte := Byte.byte_eq_dec.
#[global] Instance byte_countable : Countable byte :=
  inj_countable Byte.to_N Byte.of_N Byte.of_to_N.
#[global] Instance byte_inhabited : Inhabited byte := populate x00.

(** A Go string is an immutable sequence of bytes. *)
Abbreviation gostring := (list byte) (only parsing).

(** String literals of the source, as byte sequences. *)
Definition str (s : string) : gostring := String.list_byte_of_string s.

(** * Part I: the program *)

(** ** The Go language and library primitives the package uses *)

Module Go.

(** [uint64(x)] and [int64(x)] between 64-bit integer types: the value
    is kept modulo 2^64 and read unsigned, respectively signed. *)
Definition uint64 (z : Z) : Z := z mod 2 ^ 64.
Definition int64 (z : Z) : Z := (z + 2 ^ 63) mod 2 ^ 64 - 2 ^ 63.

Definition minInt64 : Z := - 2 ^ 63.
Definition maxInt64 : Z := 2 ^ 63 - 1.

(** The values an [int64] variable can hold. *)
Definition is_int64 (z : Z) : Prop := minInt64 <= z <= maxInt64.

(** [bytes[lo:hi]] on a slice that is long enough. *)
Definition slice (lo hi : nat) (b : list byte) : list byte :=
  take (hi - lo) (drop lo b).

(** The result of a call that may panic. *)
Inductive outcome (A : Type) : Type :=
| Returns (a : A)
| Panics (msg : string).
#[global] Arguments Returns {A} a.
#[global] Arguments Panics {A} msg.

(** [make([]byte, n)]: the runtime panics on a negative length.  (It
    also does on a length beyond what the allocator can give; memory is
    taken to be unbounded here.) *)
Definition make_bytes (n : Z) : outcome (list byte) :=
  if n <? 0 then Panics "makeslice: len out of range"
  else Returns (replicate (Z.to_nat n) x00).

End Go.

(** encoding/binary, [binary.LittleEndian]. *)
Module binary.

(** [PutUint64(b, v)]: b[0] = byte(v), b[1] = byte(v >> 8), ...,
    b[7] = byte(v >> 56). *)
Definition PutUint64 (b : list byte) (v : Z) : list byte :=
  let b := <[0%nat := byte.of_Z v]> b in
  let b := <[1%nat := byte.of_Z (Z.shiftr v 8)]> b in
  let b := <[2%nat := byte.of_Z (Z.shiftr v 16)]> b in
  let b := <[3%nat := byte.of_Z (Z.shiftr v 24)]> b in
  let b := <[4%nat := byte.of_Z (Z.shiftr v 32)]> b in
  let b := <[5%nat := byte.of_Z (Z.shiftr v 40)]> b in
  let b := <[6%nat := byte.of_Z (Z.shiftr v 48)]> b in
  let b := <[7%nat := byte.of_Z (Z.shiftr v 56)]> b in
  b.

(** [Uint64(b)]: uint64(b[0]) | uint64(b[1])<<8 | ... | uint64(b[7])<<56.
    Every call of the package passes a slice of eight bytes. *)
Definition Uint64 (b : list byte) : Z :=
  let u (i : nat) := byte.unsigned (b !!! i) in
  Z.lor (Z.lor (Z.lor (Z.lor (Z.lor (Z.lor (Z.lor
    (u 0%nat)
    (Z.shiftl (u 1%nat) 8))
    (Z.shiftl (u 2%nat) 16))
    (Z.shiftl (u 3%nat) 24))
    (Z.shiftl (u 4%nat) 32))
    (Z.shiftl (u 5%nat) 40))
    (Z.shiftl (u 6%nat) 48))
    (Z.shiftl (u 7%nat) 56).

End binary.

(** The UTF-8 decoding behind [for i, c := range s] on a string. *)
Module utf8.

Definition RuneSelf : Z := 128.
Definition runeError : Z := 65533.
Definition maxRune : Z := 1114111.
Definition surrogateMin : Z := 55296.
Definition surrogateMax : Z := 57343.
Definition t2 : Z := 192.
Definition t3 : Z := 224.
Definition t4 : Z := 240.
Definition t5 : Z := 248.
Definition maskx : Z := 63.
Definition mask2 : Z := 31.
Definition mask3 : Z := 15.
Definition mask4 : Z := 7.
Definition rune1Max : Z := 127.
Definition rune2Max : Z := 2047.
Definition rune3Max : Z := 65535.
Definition locb : Z := 128.
Definition hicb : Z := 191.

(** A continuation byte. *)
Definition cont (b : byte) : bool :=
  (locb <=? byte.unsigned b) && (byte.unsigned b <=? hicb).

(** [decoderune(s, k)] of the runtime, on the suffix [s[k:]]: the rune
    that starts there and the number of bytes it takes; an invalid or
    short sequence is [runeError] of width one. *)
Definition decoderune (s : list byte) : Z * nat :=
  match s with
  | [] => (runeError, 1%nat)
  | s0 :: rest =>
    let c0 := byte.unsigned s0 in
    if (t2 <=? c0) && (c0 <? t3) then
      match rest with
      | s1 :: _ =>
        if cont s1 then
          let r := Z.lor (Z.shiftl (Z.land c0 mask2) 6)
                         (Z.land (byte.unsigned s1) maskx) in
          if rune1Max <? r then (r, 2%nat) else (runeError, 1%nat)
        else (runeError, 1%nat)
      | _ => (runeError, 1%nat)
      end
    else if (t3 <=? c0) && (c0 <? t4) then
      match rest with
      | s1 :: s2 :: _ =>
        if cont s1 && cont s2 then
          let r := Z.lor (Z.lor (Z.shiftl (Z.land c0 mask3) 12)
                                (Z.shiftl (Z.land (byte.unsigned s1) maskx) 6))
                         (Z.land (byte.unsigned s2) maskx) in
          if (rune2Max <? r)
             && negb ((surrogateMin <=? r) && (r <=? surrogateMax))
          then (r, 3%nat) else (runeError, 1%nat)
        else (runeError, 1%nat)
      | _ => (runeError, 1%nat)
      end
    else if (t4 <=? c0) && (c0 <? t5) then
      match rest with
      | s1 :: s2 :: s3 :: _ =>
        if cont s1 && cont s2 && cont s3 then
          let r := Z.lor (Z.lor (Z.lor
                     (Z.shiftl (Z.land c0 mask4) 18)
                     (Z.shiftl (Z.land (byte.unsigned s1) maskx) 12))
                     (Z.shiftl (Z.land (byte.unsigned s2) maskx) 6))
                     (Z.land (byte.unsigned s3) maskx) in
          if (rune3Max <? r) && (r <=? maxRune)
          then (r, 4%nat) else (runeError, 1%nat)
        else (runeError, 1%nat)
      | _ => (runeError, 1%nat)
      end
    else (runeError, 1%nat)
  end.

(** The pairs (byte index, rune) that [for i, c := range s] goes through,
    for the part of the string that starts at index [i]; [skip] counts
    the bytes still covered by the rune decoded last. *)
Fixpoint range_from (skip i : nat) (s : list byte) : list (nat * Z) :=
  match s with
  | [] => []
  | b :: rest =>
    match skip with
    | S k => range_from k (S i) rest
    | O =>
      if byte.unsigned b <? RuneSelf
      then (i, byte.unsigned b) :: range_from 0 (S i) rest
      else let '(r, w) := decoderune s in
           (i, r) :: range_from (w - 1) (S i) rest
    end
  end.

Definition range_string (s : list byte) : list (nat * Z) :=
  range_from 0 0 s.

End utf8.

(** package strings. *)
Module gostrings.

(** [trimLeftByte(s, c)]: drop the leading bytes equal to [c]. *)
Fixpoint trimLeftByte (s : list byte) (c : byte) : list byte :=
  match s with
  | [] => []
  | b :: rest => if decide (b = c) then trimLeftByte rest c else s
  end.

(** [trimRightByte(s, c)]: drop the trailing bytes equal to [c]. *)
Definition trimRightByte (s : list byte) (c : byte) : list byte :=
  reverse (trimLeftByte (reverse s) c).

(** [strings.Trim(s, cutset)] for a cutset of one ASCII byte, the only
    use the package makes of it: both ends are trimmed. *)
Definition Trim (s : list byte) (c : byte) : list byte :=
  trimLeftByte (trimRightByte s c) c.

End gostrings.

(** ** Errors of the package (and of the libraries under it) *)

Inductive error : Type :=
| EOF                                     (* io.EOF *)
| errConnectionClosed                     (* client.go *)
| errInvalidProtocol                      (* server.go *)
| errInvalidEndpoint                      (* server.go *)
| Wrap (cause : error) (msg : string)     (* errors.Wrap(cause, msg) *)
| errNet (msg : string).                  (* an error of package net *)

#[global] Instance error_eq_dec : EqDecision error.
Proof. solve_decision. Defined.

(** [errors.Cause]: the innermost error of a chain of wraps. *)
Fixpoint Cause (e : error) : error :=
  match e with
  | Wrap c _ => Cause c
  | _ => e
  end.

(** ** metadata.go *)

Definition headerSize : nat := 225.
Definition headerEndpointSize : nat := 100.
Definition headerContentTypeSize : nat := 100.

Definition EndpointRequest : byte := x00.
Definition EndpointStream : byte := x01.

(** [time.Millisecond], in nanoseconds. *)
Definition Millisecond : Z := 1000000.

Record Metadata : Type := mkMetadata {
  EndpointType : byte;
  UserID : Z;
  BodySize : Z;
  Timeout : Z;
  Endpoint : gostring;
  ContentType : gostring
}.

(** [Metadata{}]. *)
Definition zeroMetadata : Metadata :=
  {| EndpointType := x00; UserID := 0; BodySize := 0; Timeout := 0;
     Endpoint := []; ContentType := [] |}.

(** [for i, bb := range ib { b[i+off] = bb; ib[i] = 0 }], from index [i]
    on: the scratch buffer is copied into the header and cleared. *)
Fixpoint copyClear (n i off : nat) (ib b : list byte)
  : list byte * list byte :=
  match n with
  | O => (b, ib)
  | S n' =>
    copyClear n' (S i) off
      (<[i := x00]> ib) (<[(i + off)%nat := ib !!! i]> b)
  end.

(** [for i, c := range s { if i >= width { break }; b[i+off] = byte(c) }],
    on the pairs the range yields. *)
Fixpoint copyString (off width : nat) (rs : list (nat * Z)) (b : list byte)
  : list byte :=
  match rs with
  | [] => b
  | (i, c) :: rs' =>
    if (width <=? i)%nat then b
    else copyString off width rs' (<[(i + off)%nat := byte.of_Z c]> b)
  end.

(** [Metadata.Encode]. *)
Definition Encode (m : Metadata) : list byte :=
  let b := replicate headerSize x00 in
  let ib := replicate 8 x00 in
  let b := <[0%nat := EndpointType m]> b in
  let ib := binary.PutUint64 ib (Go.uint64 (UserID m)) in
  let '(b, ib) := copyClear (length ib) 0 1 ib b in
  let ib := binary.PutUint64 ib (Go.uint64 (Z.quot (Timeout m) Millisecond)) in
  let '(b, ib) := copyClear (length ib) 0 9 ib b in
  let ib := binary.PutUint64 ib (Go.uint64 (BodySize m)) in
  let '(b, ib) := copyClear (length ib) 0 17 ib b in
  let b := copyString 25 headerContentTypeSize
             (utf8.range_string (ContentType m)) b in
  let b := copyString 125 headerEndpointSize
             (utf8.range_string (Endpoint m)) b in
  b.

(** [DecodeMetadata]. *)
Definition DecodeMetadata (bytes : list byte) : Metadata * option error :=
  if (length bytes <? headerSize)%nat then (zeroMetadata, Some EOF)
  else
    ({| EndpointType := bytes !!! 0%nat;
        UserID := Go.int64 (binary.Uint64 (Go.slice 1 9 bytes));
        Timeout := Go.int64 (Millisecond *
                     Go.int64 (binary.Uint64 (Go.slice 9 17 bytes)));
        BodySize := Go.int64 (binary.Uint64 (Go.slice 17 25 bytes));
        ContentType :=
          gostrings.Trim
            (Go.slice 25 (25 + headerContentTypeSize) bytes) x00;
        Endpoint := gostrings.Trim (Go.slice 125 headerSize bytes) x00 |},
     None).

(** ** Notions used to state the properties of the codec *)

(** The eight bytes [PutUint64] leaves in an eight-byte buffer. *)
Definition le64 (v : Z) : list byte :=
  [byte.of_Z v; byte.of_Z (Z.shiftr v 8); byte.of_Z (Z.shiftr v 16);
   byte.of_Z (Z.shiftr v 24); byte.of_Z (Z.shiftr v 32);
   byte.of_Z (Z.shiftr v 40); byte.of_Z (Z.shiftr v 48);
   byte.of_Z (Z.shiftr v 56)].

(** What the string loop of [Encode] leaves in a zeroed region of the
    given width. *)
Definition field (width : nat) (s : gostring) : list byte :=
  copyString 0 width (utf8.range_string s) (replicate width x00).

(** A string of ASCII bytes: every byte is below [utf8.RuneSelf]. *)
Definition ascii_only (s : gostring) : Prop :=
  Forall (fun b => byte.unsigned b < utf8.RuneSelf) s.

(** A string that [strings.Trim] leaves alone: neither its first nor its
    last byte is NUL. *)
Definition nul_free_ends (s : gostring) : Prop :=
  head s <> Some x00 /\ last s <> Some x00.

(** ** Concrete metadata values used below *)

(** An endpoint name of two bytes, the letter a and a NUL byte. *)
Definition metaTrailingNul : Metadata :=
  {| EndpointType := EndpointRequest; UserID := 0; BodySize := 0;
     Timeout := 0; Endpoint := ["a"%byte; x00]; ContentType := [] |}.

(** An endpoint name of 101 bytes: 99 letters, a NUL byte and a letter. *)
Definition metaLongName : Metadata :=
  {| EndpointType := EndpointRequest; UserID := 0; BodySize := 0;
     Timeout := 0;
     Endpoint := replicate 99 "a"%byte ++ [x00; "b"%byte];
     ContentType := [] |}.

(** A request for the endpoint echo with a body of five bytes. *)
Definition metaEcho : Metadata :=
  {| EndpointType := EndpointRequest; UserID := 123; BodySize := 5;
     Timeout := 456 * Millisecond; Endpoint := str "echo";
     ContentType := str "text/plain" |}.

(** A request whose endpoint name has 500 letters, as in the test of the
    package. *)
Definition metaBigName : Metadata :=
  {| EndpointType := EndpointStream; UserID := Go.maxInt64;
     BodySize := 7613947812643; Timeout := 1098374 * Millisecond;
     Endpoint := replicate 500 "a"%byte; ContentType := str "text/plain" |}.

(** The two string fields of the header. *)
Inductive stringField : Type := FContentType | FEndpoint.

Definition fieldOf (f : stringField) (m : Metadata) : gostring :=
  match f with FContentType => ContentType m | FEndpoint => Endpoint m end.

Definition fieldWidth (f : stringField) : nat :=
  match f with
  | FContentType => headerContentTypeSize
  | FEndpoint => headerEndpointSize
  end.

(** The byte region of a string field in a header. *)
Definition fieldRegion (f : stringField) (header : list byte) : list byte :=
  match f with
  | FContentType => Go.slice 25 (25 + headerContentTypeSize) header
  | FEndpoint => Go.slice 125 headerSize header
  end.

(** ** The connection under the wrapper: [net.Conn] *)

(** The methods of [net.Conn] the package calls, as transitions of the
    connection's state.  [conn_Read c n] is [Read] on a buffer of [n]
    bytes: the bytes that arrived (at most [n]) and the error.  The
    address [RemoteAddr] returns goes to the log only, so that call is
    given by the state it leaves. *)
Class NetConn (C : Type) : Type := {
  conn_Read : C -> nat -> (list byte * option error) * C;
  conn_Write : C -> list byte -> (Z * option error) * C;
  conn_Close : C -> option error * C;
  conn_SetDeadline : C -> Z -> option error * C;
  conn_RemoteAddr : C -> C;
  conn_Read_le : forall c n, (length (fst (fst (conn_Read c n))) <= n)%nat
}.

(** A buffer after [Read] has put [got] at its start. *)
Definition filled (buf got : list byte) : list byte :=
  got ++ drop (length got) buf.

(** The calls made on a connection. *)
Inductive connCall : Type :=
| CallRead (n : nat)
| CallWrite (b : list byte)
| CallClose
| CallSetDeadline (t : Z)
| CallRemoteAddr.

(** A simulated TCP connection: the segments still to arrive from the
    peer, the error that follows them ([EOF] when the peer closes),
    whether [Close] was called, and the calls made so far. *)
Record simConn : Type := mkSimConn {
  inbox : list (list byte);
  ending : error;
  isClosed : bool;
  calls : list connCall
}.

Definition errNetClosing : error := errNet "use of closed network connection".

(** What one [Read] of [n] bytes takes from the segments: bytes of the
    first segment that is not empty, or nothing at the end. *)
Fixpoint takeSegment (n : nat) (segs : list (list byte))
  : option (list byte) * list (list byte) :=
  match segs with
  | [] => (None, [])
  | [] :: rest => takeSegment n rest
  | seg :: rest =>
    (Some (take n seg),
     match drop n seg with [] => rest | more => more :: rest end)
  end.

Definition logCall (k : simConn) (call : connCall) : simConn :=
  {| inbox := inbox k; ending := ending k; isClosed := isClosed k;
     calls := calls k ++ [call] |}.

Definition simRead (k : simConn) (n : nat)
  : (list byte * option error) * simConn :=
  let k := logCall k (CallRead n) in
  if isClosed k then (([], Some errNetClosing), k)
  else if (n =? 0)%nat then (([], None), k)
  else
    match takeSegment n (inbox k) with
    | (None, rest) =>
      (([], Some (ending k)),
       {| inbox := rest; ending := ending k; isClosed := isClosed k;
          calls := calls k |})
    | (Some got, rest) =>
      ((got, None),
       {| inbox := rest; ending := ending k; isClosed := isClosed k;
          calls := calls k |})
    end.

Definition simWrite (k : simConn) (b : list byte)
  : (Z * option error) * simConn :=
  let k := logCall k (CallWrite b) in
  if isClosed k then ((0, Some errNetClosing), k)
  else ((Z.of_nat (length b), None), k).

Definition simClose (k : simConn) : option error * simConn :=
  let k := logCall k CallClose in
  if isClosed k then (Some errNetClosing, k)
  else (None, {| inbox := inbox k; ending := ending k; isClosed := true;
                 calls := calls k |}).

Definition simSetDeadline (k : simConn) (t : Z) : option error * simConn :=
  let k := logCall k (CallSetDeadline t) in
  if isClosed k then (Some errNetClosing, k) else (None, k).

Definition simRemoteAddr (k : simConn) : simConn := logCall k CallRemoteAddr.

(** A fresh connection on which the given segments will arrive, followed
    by the peer's close. *)
Definition simDial (segs : list (list byte)) : simConn :=
  {| inbox := segs; ending := EOF; isClosed := false; calls := [] |}.

(** ** client.go *)

Section ClientDefs.

Context {C : Type} `{NetConn C}.

Record Client : Type := mkClient {
  conn : C;
  protocol : gostring;
  uri : gostring;
  closed : bool
}.

Definition withConn (c : Client) (k : C) : Client :=
  {| conn := k; protocol := protocol c; uri := uri c; closed := closed c |}.

(** [NewClientConn]. *)
Definition NewClientConn (k : C) : Client :=
  {| conn := k; protocol := []; uri := []; closed := false |}.

(** [Client.Write]. *)
Definition Write (c : Client) (b : list byte) : (Z * option error) * Client :=
  if closed c then ((0, Some errConnectionClosed), c)
  else let '(r, k) := conn_Write (conn c) b in (r, withConn c k).

(** [Client.WriteMeta]. *)
Definition WriteMeta (c : Client) (meta : Metadata)
  : (Z * option error) * Client :=
  if closed c then ((0, Some errConnectionClosed), c)
  else Write c (Encode meta).

(** [Client.WriteData]. *)
Definition WriteData (c : Client) (endpoint : gostring) (body : list byte)
  : (Z * option error) * Client :=
  if closed c then ((0, Some errConnectionClosed), c)
  else
    let meta := {| EndpointType := x00; UserID := 0;
                   BodySize := Go.int64 (Z.of_nat (length body));
                   Timeout := 0; Endpoint := endpoint; ContentType := [] |} in
    let req := Encode meta in
    Write c (req ++ body).

(** [Client.WriteDataReader]; the reader is given by what [io.Copy] gets
    out of it: the bytes and the error it stops with, if any. *)
Definition WriteDataReader (c : Client) (endpoint : gostring)
    (body : list byte * option error) : (Z * option error) * Client :=
  if closed c then ((0, Some errConnectionClosed), c)
  else
    match snd body with
    | Some err => ((0, Some (Wrap err "could not copy from reader")), c)
    | None =>
      let meta := {| EndpointType := x00; UserID := 0;
                     BodySize := Go.int64 (Z.of_nat (length (fst body)));
                     Timeout := 0; Endpoint := endpoint;
                     ContentType := [] |} in
      let req := Encode meta in
      Write c (req ++ fst body)
    end.

(** [Client.Read], on a buffer [b]: the buffer is returned as the call
    leaves it, with the count. *)
Definition Read (c : Client) (b : list byte)
  : (list byte * Z * option error) * Client :=
  if closed c then ((b, 0, Some errConnectionClosed), c)
  else
    let '((got, err), k) := conn_Read (conn c) (length b) in
    ((filled b got, Z.of_nat (length got), err), withConn c k).

(** [Client.ReadMeta]. *)
Definition ReadMeta (c : Client) : (Metadata * option error) * Client :=
  let header := replicate headerSize x00 in
  let '((header, _, err), c) := Read c header in
  match err with
  | Some e => ((zeroMetadata, Some e), c)
  | None =>
    let '(meta, err) := DecodeMetadata header in
    match err with
    | Some EOF => ((meta, Some EOF), c)
    | None => ((meta, None), c)
    | Some e => ((meta, Some (Wrap e "could not decode metadata")), c)
    end
  end.

(** [Client.ReadBody]. *)
Definition ReadBody (c : Client) (meta : Metadata)
  : Go.outcome ((list byte * option error) * Client) :=
  match Go.make_bytes (BodySize meta) with
  | Go.Panics msg => Go.Panics msg
  | Go.Returns body =>
    let '((body, _, err), c) := Read c body in
    match err with
    | Some EOF => Go.Returns ((body, Some EOF), c)
    | None => Go.Returns ((body, None), c)
    | Some e => Go.Returns ((body, Some (Wrap e "could not read body")), c)
    end
  end.

(** [Client.ReadData]. *)
Definition ReadData (c : Client)
  : Go.outcome ((Metadata * list byte * option error) * Client) :=
  let '((meta, err), c) := ReadMeta c in
  match err with
  | Some e => Go.Returns ((meta, [], Some e), c)
  | None =>
    match ReadBody c meta with
    | Go.Panics msg => Go.Panics msg
    | Go.Returns ((body, err), c) => Go.Returns ((meta, body, err), c)
    end
  end.

(** [Client.Close]. *)
Definition Close (c : Client) : option error * Client :=
  let c := {| conn := conn c; protocol := protocol c; uri := uri c;
              closed := true |} in
  let '(err, k) := conn_Close (conn c) in (err, withConn c k).

(** [Client.SetDeadline]. *)
Definition SetDeadline (c : Client) (deadline : Z) : option error * Client :=
  let '(err, k) := conn_SetDeadline (conn c) deadline in (err, withConn c k).

End ClientDefs.

Arguments Client C : clear implicits.

#[global] Instance simConn_NetConn : NetConn simConn.
Proof.
  refine {| conn_Read := simRead; conn_Write := simWrite;
            conn_Close := simClose; conn_SetDeadline := simSetDeadline;
            conn_RemoteAddr := simRemoteAddr |}.
  intros k n. unfold simRead.
  destruct (isClosed (logCall k (CallRead n))); [cbn; lia|].
  destruct (n =? 0)%nat; [cbn; lia|].
  generalize (inbox (logCall k (CallRead n))) as segs.
  induction segs as [|seg segs IH]; [cbn; lia|].
  destruct seg as [|b seg]; [exact IH|].
  cbn [takeSegment fst]. rewrite length_take. lia.
Defined.

(** ** Go maps *)

(** A map variable is nil or holds a table.  Reading a nil map finds
    nothing; assigning to an entry of a nil map panics. *)
Definition mapLookup {V : Type} (m : option (gmap (list byte) V))
    (k : gostring) : option V :=
  match m with
  | None => None
  | Some table => table !! k
  end.

Definition mapAssign {V : Type} (m : option (gmap (list byte) V))
    (k : gostring) (v : V) : Go.outcome (option (gmap (list byte) V)) :=
  match m with
  | None => Go.Panics "assignment to entry in nil map"
  | Some table => Go.Returns (Some (<[k := v]> table))
  end.

(** ** endpoints.go and server.go *)

Definition ProtocolTCP : gostring := str "tcp".
Definition ProtocolUnix : gostring := str "unix".

(** [RequestEndpoint]: from the metadata and the bytes of the input
    reader to the bytes written to the output writer and the error. *)
Definition RequestEndpoint : Type :=
  Metadata -> list byte -> list byte * option error.

(** [defaultRetries] and [incrementRetries]; a [time.Duration] counts
    nanoseconds in an [int64], and [int] has 64 bits. *)
Definition defaultRetries : Z * Z := (10 * Millisecond, 0).

Definition incrementRetries (timeout tries : Z) : Z * Z :=
  (Go.int64 (timeout * 2), Go.int64 (tries + 1)).

Section ServerDefs.

Context {C : Type} `{NetConn C}.

(** [StreamingEndpoint]: the handler works on the wrapper, which it may
    read, write and close. *)
Definition StreamingEndpoint : Type :=
  Metadata -> Client C -> option error * Client C.

(** [Server]; the two channels and the wait group are the state of the
    threads model further down. *)
Record Server : Type := mkServer {
  MaxRetries : Z;
  MaxTimeout : Z;
  Protocol : gostring;
  URI : gostring;
  Log : bool;
  requestEndpoints : option (gmap (list byte) RequestEndpoint);
  streamingEndpoints : option (gmap (list byte) StreamingEndpoint)
}.

(** [NewServer]: the struct literal sets [requestEndpoints] to an empty
    map and leaves [streamingEndpoints] at its zero value, the nil map. *)
Definition NewServer (protocol uri : gostring) : option Server * option error :=
  if decide (protocol = ProtocolTCP \/ protocol = ProtocolUnix) then
    (Some {| MaxRetries := 10; MaxTimeout := 0; Protocol := protocol;
             URI := uri; Log := false;
             requestEndpoints := Some ∅;
             streamingEndpoints := None |}, None)
  else (None, Some errInvalidProtocol).

(** [Server.AddRequestEndpoint]. *)
Definition AddRequestEndpoint (s : Server) (name : gostring)
    (endpoint : RequestEndpoint) : Go.outcome Server :=
  match mapAssign (requestEndpoints s) name endpoint with
  | Go.Panics msg => Go.Panics msg
  | Go.Returns m =>
    Go.Returns {| MaxRetries := MaxRetries s; MaxTimeout := MaxTimeout s;
                  Protocol := Protocol s; URI := URI s; Log := Log s;
                  requestEndpoints := m;
                  streamingEndpoints := streamingEndpoints s |}
  end.

(** [Server.AddStreamingEndpoint]. *)
Definition AddStreamingEndpoint (s : Server) (name : gostring)
    (endpoint : StreamingEndpoint) : Go.outcome Server :=
  match mapAssign (streamingEndpoints s) name endpoint with
  | Go.Panics msg => Go.Panics msg
  | Go.Returns m =>
    Go.Returns {| MaxRetries := MaxRetries s; MaxTimeout := MaxTimeout s;
                  Protocol := Protocol s; URI := URI s; Log := Log s;
                  requestEndpoints := requestEndpoints s;
                  streamingEndpoints := m |}
  end.

(** The reading of the clock by [time.Now], in nanoseconds. *)
Variable now : Z.

(** [newDeadline]. *)
Definition newDeadline (duration : Z) : Z := now + duration.

(** [Server.setDeadline]. *)
Definition setDeadline (s : Server) (client : Client C)
  : option error * Client C :=
  if 0 <? MaxTimeout s then SetDeadline client (newDeadline (MaxTimeout s))
  else (None, client).

(** [Server.handleStreamingConn]. *)
Definition handleStreamingConn (s : Server) (meta : Metadata)
    (client : Client C) : option error * Client C :=
  match mapLookup (streamingEndpoints s) (Endpoint meta) with
  | None => (Some errInvalidEndpoint, client)
  | Some endpoint => endpoint meta client
  end.

(** [Server.handleRequestConn]. *)
Definition handleRequestConn (s : Server) (meta : Metadata)
    (client : Client C) : Go.outcome (option error * Client C) :=
  match mapLookup (requestEndpoints s) (Endpoint meta) with
  | None => Go.Returns (Some errInvalidEndpoint, client)
  | Some endpoint =>
    match ReadBody client meta with
    | Go.Panics msg => Go.Panics msg
    | Go.Returns ((_, Some err), client) => Go.Returns (Some err, client)
    | Go.Returns ((body, None), client) =>
      match endpoint meta body with
      | (_, Some err) => Go.Returns (Some err, client)
      | (wbuf, None) =>
        match WriteData client (Endpoint meta) wbuf with
        | ((_, Some err), client) => Go.Returns (Some err, client)
        | ((_, None), client) =>
          match setDeadline s client with
          | (Some err, client) => Go.Returns (Some err, client)
          | (None, client) => Go.Returns (None, client)
          end
        end
      end
    end
  end.

(** One turn of the [for] loop of [Server.handleConn]: [true] when the
    loop goes on to its next turn, which starts with [ReadMeta], and
    [false] when [handleConn] returns. *)
Definition dispatch (s : Server) (client : Client C)
  : Go.outcome (bool * Client C) :=
  match ReadMeta client with
  | ((_, Some _), client) => Go.Returns (false, client)
  | ((meta, None), client) =>
    if decide (EndpointType meta = EndpointRequest) then
      match handleRequestConn s meta client with
      | Go.Panics msg => Go.Panics msg
      | Go.Returns (Some _, client) => Go.Returns (false, client)
      | Go.Returns (None, client) => Go.Returns (true, client)
      end
    else if decide (EndpointType meta = EndpointStream) then
      match handleStreamingConn s meta client with
      | (Some _, client) => Go.Returns (false, client)
      | (None, client) => Go.Returns (true, client)
      end
    else Go.Returns (false, client)
  end.

(** The [for] loop of [Server.handleConn], for at most [fuel] turns:
    the wrapper as the loop leaves it, or [None] when the turns run out. *)
Fixpoint serveLoop (fuel : nat) (s : Server) (client : Client C)
  : Go.outcome (option (Client C)) :=
  match fuel with
  | O => Go.Returns None
  | S fuel' =>
    match dispatch s client with
    | Go.Panics msg => Go.Panics msg
    | Go.Returns (false, client) => Go.Returns (Some client)
    | Go.Returns (true, client) => serveLoop fuel' s client
    end
  end.

(** [Server.handleConn] without its wait-group calls, which the threads
    below have: the address is asked for the log line (the argument is
    evaluated whatever [s.Log] is), the wrapper is made, the deadline
    set (an error there is only logged), the loop run, and the deferred
    function closes the connection itself and asks for the address
    again. *)
Definition handleConn (fuel : nat) (s : Server) (k : C)
  : Go.outcome (option C) :=
  let k := conn_RemoteAddr k in
  let client := NewClientConn k in
  let '(_, client) := setDeadline s client in
  match serveLoop fuel s client with
  | Go.Panics msg => Go.Panics msg
  | Go.Returns None => Go.Returns None
  | Go.Returns (Some client) =>
    Go.Returns
      (Some (conn_RemoteAddr (snd (conn_Close (conn client)))))
  end.

(** What [AcceptTCP] comes back with. *)
Inductive acceptResult : Type :=
| AcceptConn (k : C)
| AcceptTimeout (e : error)       (* a net.Error with Timeout() *)
| AcceptTemporary (e : error)     (* a net.Error with Temporary() only *)
| AcceptNetError (e : error)      (* a net.Error with neither *)
| AcceptError (e : error).        (* any other error *)

(** What a turn of the accept loop does besides changing its counters. *)
Inductive listenAction : Type :=
| ActSleep (d : Z)                (* time.Sleep(d) *)
| ActServe (k : option C).        (* go s.handleConn(conn) *)

(** What a turn of the accept loop meets: a pending send on
    [willShutdown], a failing [SetDeadline] on the listener, or the
    result of the accept. *)
Inductive listenEvent : Type :=
| EvShutdown
| EvDeadlineError (e : error)
| EvAccept (r : acceptResult).

Inductive listenTurn : Type :=
| TurnNext (timeout tries : Z) (acts : list listenAction)
| TurnReturn (err : option error)
| TurnShutdown.

(** One turn of the [for] loop of [Server.listenTCP]. *)
Definition listenTurnTCP (s : Server) (timeout tries : Z)
    (ev : listenEvent) : listenTurn :=
  match ev with
  | EvShutdown => TurnShutdown
  | EvDeadlineError e => TurnReturn (Some e)
  | EvAccept (AcceptTimeout _) => TurnNext timeout tries []
  | EvAccept (AcceptTemporary e) =>
    if MaxRetries s <? tries then TurnReturn (Some e)
    else
      let '(timeout, tries) := incrementRetries timeout tries in
      TurnNext timeout tries [ActSleep timeout]
  | EvAccept (AcceptNetError _) => TurnNext timeout tries [ActServe None]
  | EvAccept (AcceptError e) => TurnReturn (Some e)
  | EvAccept (AcceptConn k) => TurnNext timeout tries [ActServe (Some k)]
  end.

(** How the accept loop stands after the events it has met. *)
Inductive listenStatus : Type :=
| Listening (timeout tries : Z)
| Returned (err : option error)
| ShuttingDown.

(** The [for] loop of [Server.listenTCP] over the events it meets, from
    the counters [timeout] and [tries]: what it did and how it stands. *)
Fixpoint listenLoop (s : Server) (timeout tries : Z)
    (evs : list listenEvent) : list listenAction * listenStatus :=
  match evs with
  | [] => ([], Listening timeout tries)
  | ev :: evs' =>
    match listenTurnTCP s timeout tries ev with
    | TurnNext timeout' tries' acts =>
      let '(acts', st) := listenLoop s timeout' tries' evs' in
      (acts ++ acts', st)
    | TurnReturn err => ([], Returned err)
    | TurnShutdown => ([], ShuttingDown)
    end
  end.

(** [Server.listenTCP] once the listener is bound. *)
Definition listenTCP (s : Server) (evs : list listenEvent)
  : list listenAction * listenStatus :=
  let '(timeout, tries) := defaultRetries in
  listenLoop s timeout tries evs.

End ServerDefs.

Arguments Server C : clear implicits.
Arguments StreamingEndpoint C : clear implicits.
Arguments acceptResult C : clear implicits.
Arguments listenAction C : clear implicits.
Arguments listenEvent C : clear implicits.

(** ** Concrete connections used below *)

(** A wrapper on a connection where three bytes arrive before the peer
    closes. *)
Definition clientThreeBytes : Client simConn :=
  NewClientConn (simDial [str "hel"]).

(** A wrapper on a connection where a segment of eleven bytes arrives. *)
Definition clientElevenBytes : Client simConn :=
  NewClientConn (simDial [str "hello world"]).

(** The same wrapper after [Close]. *)
Definition clientClosed : Client simConn :=
  snd (Close clientElevenBytes).

(** A header whose body size field holds 2^64 - 1. *)
Definition headerHugeBody : list byte :=
  replicate 17 x00 ++ replicate 8 xff ++ replicate 200 x00.

(** A wrapper on a connection where five bytes arrive in two segments. *)
Definition clientTwoSegments : Client simConn :=
  NewClientConn (simDial [str "hel"; str "lo"]).

(** ** Concrete servers used below *)

(** The counters after [k] calls of [incrementRetries] from
    [defaultRetries]. *)
Definition retriesAfter (k : nat) : Z * Z :=
  Nat.iter k (fun st => incrementRetries (fst st) (snd st)) defaultRetries.

(** A transient accept error. *)
Definition errTemporary : error := errNet "accept: too many open files".

(** [k] transient accept errors in a row. *)
Definition temporaries (C : Type) (k : nat) : list (listenEvent C) :=
  replicate k (EvAccept (AcceptTemporary errTemporary)).

(** The sleeps of the turns [j+1] to [j+k] of an undisturbed backoff. *)
Definition backoffSleeps (C : Type) (j k : nat) : list (listenAction C) :=
  (fun i => ActSleep (10 * Millisecond * 2 ^ Z.of_nat i)) <$> seq (S j) k.

(** A stream handler that returns nil and leaves the wrapper alone, as
    the one of the chat example. *)
Definition idleStream : StreamingEndpoint simConn :=
  fun _ client => (None, client).

(** A server with that handler under the name message. *)
Definition serverChat : Server simConn :=
  {| MaxRetries := 10; MaxTimeout := 0; Protocol := ProtocolTCP;
     URI := str "127.0.0.1:1337"; Log := true;
     requestEndpoints := Some ∅;
     streamingEndpoints := Some {[ str "message" := idleStream ]} |}.

(** A server that allows a hundred retries. *)
Definition serverPatient : Server simConn :=
  {| MaxRetries := 100; MaxTimeout := 0; Protocol := ProtocolTCP;
     URI := str "127.0.0.1:1337"; Log := false;
     requestEndpoints := Some ∅; streamingEndpoints := None |}.

(** The header a chat client opens its connection with. *)
Definition headerChat : list byte :=
  Encode {| EndpointType := EndpointStream; UserID := 0; BodySize := 0;
            Timeout := 0; Endpoint := str "message"; ContentType := [] |}.

(** A connection on which two such headers arrive. *)
Definition connChat : simConn := simDial [headerChat; headerChat].

(** Two request handlers. *)
Definition echoEndpoint : RequestEndpoint := fun _ body => (body, None).
Definition failEndpoint : RequestEndpoint :=
  fun _ _ => ([], Some (errNet "no")).

(** A stream handler that closes the wrapper when it is done, as the
    handler contract asks. *)
Definition closingStream : StreamingEndpoint simConn :=
  fun _ client => Close client.

(** A server with that handler under the name message. *)
Definition serverClosing : Server simConn :=
  {| MaxRetries := 10; MaxTimeout := 0; Protocol := ProtocolTCP;
     URI := str "127.0.0.1:1337"; Log := true;
     requestEndpoints := Some ∅;
     streamingEndpoints := Some {[ str "message" := closingStream ]} |}.

(** ** The threads of a server: Shutdown, the accept loop, the handlers

    [Server.Shutdown], the loop of [Server.listenTCP] with
    [Server.handleShutdown], and the goroutines of [Server.handleConn]
    run concurrently.  Each is followed by a program counter; a step is
    one of them moving, and a schedule is a list of steps.  The two
    channels are unbuffered, so a send and its receive are one step of
    both threads.  What a thread does after such a step is a step of its
    own: [listenTCP] returns after the send on [didShutdown], and the
    deferred function of [handleConn] runs [s.wg.Done()] before
    [conn.Close()]. *)

(** The caller of [Shutdown]. *)
Inductive callerPc : Type :=
| CallerIdle          (* Shutdown not called *)
| CallerSending       (* blocked in  s.willShutdown <- struct{}{}  *)
| CallerWaiting       (* blocked in  <-s.didShutdown  *)
| CallerReturned.     (* Shutdown has returned *)

(** The accept loop. *)
Inductive listenerPc : Type :=
| AtSelect            (* at the select on willShutdown *)
| AtAccept            (* in SetDeadline and AcceptTCP *)
| AtClose             (* handleShutdown: at listener.Close() *)
| AtWait              (* handleShutdown: at s.wg.Wait() *)
| AtNotify            (* handleShutdown: at  s.didShutdown <- struct{}{}  *)
| AtReturn            (* after the send: handleShutdown returns nil, the
                         deferred listener.Close() is still to run *)
| ListenerReturned.   (* listenTCP has returned *)

(** A goroutine started by [go s.handleConn(conn)]. *)
Inductive handlerPc : Type :=
| Spawned             (* started, before s.wg.Add(1) *)
| Serving             (* after s.wg.Add(1), up to the deferred s.wg.Done() *)
| Closing             (* after s.wg.Done(), before conn.Close() *)
| Finished.           (* the deferred function has run to its end *)

#[global] Instance handlerPc_eq_dec : EqDecision handlerPc.
Proof. solve_decision. Defined.

Record world : Type := mkWorld {
  caller : callerPc;
  listener : listenerPc;
  handlers : list handlerPc;     (* one per accepted connection *)
  wg : Z;                        (* the counter of s.wg *)
  listenerClosed : bool          (* the listening socket is closed *)
}.

Inductive label : Type :=
| CallShutdown        (* the caller enters Shutdown *)
| Select              (* the loop runs its select *)
| AcceptNothing       (* the accept ends with a timeout, or with a
                         transient error and its sleep *)
| AcceptOne           (* the accept returns a connection (or a net.Error
                         that is neither a timeout nor temporary): the
                         loop starts a handler *)
| AcceptFails         (* the accept or SetDeadline fails for good *)
| CloseListener       (* handleShutdown closes the listener *)
| CloseFails          (* listener.Close() returns an error *)
| WaitPasses          (* s.wg.Wait() returns *)
| Notify              (* the send and the receive on didShutdown *)
| HandlerAdd (i : nat)    (* handler i runs s.wg.Add(1) *)
| HandlerDone (i : nat)   (* handler i leaves its loop; its deferred
                             function runs s.wg.Done() *)
| HandlerClose (i : nat)  (* the deferred function of handler i runs
                             conn.Close() and ends *)
| LoopReturns.            (* listenTCP returns after the notification *)

Definition initialWorld : world :=
  {| caller := CallerIdle; listener := AtSelect; handlers := [];
     wg := 0; listenerClosed := false |}.

(** One step; [None] when the thread is not at that point or is blocked. *)
Definition step (l : label) (w : world) : option world :=
  match l with
  | CallShutdown =>
    match caller w with
    | CallerIdle =>
      Some {| caller := CallerSending; listener := listener w;
              handlers := handlers w; wg := wg w;
              listenerClosed := listenerClosed w |}
    | _ => None
    end
  | Select =>
    match listener w with
    | AtSelect =>
      match caller w with
      | CallerSending =>
        (* case <-s.willShutdown: return s.handleShutdown(listener) *)
        Some {| caller := CallerWaiting; listener := AtClose;
                handlers := handlers w; wg := wg w;
                listenerClosed := listenerClosed w |}
      | _ =>
        (* default: *)
        Some {| caller := caller w; listener := AtAccept;
                handlers := handlers w; wg := wg w;
                listenerClosed := listenerClosed w |}
      end
    | _ => None
    end
  | AcceptNothing =>
    match listener w with
    | AtAccept =>
      Some {| caller := caller w; listener := AtSelect;
              handlers := handlers w; wg := wg w;
              listenerClosed := listenerClosed w |}
    | _ => None
    end
  | AcceptOne =>
    match listener w with
    | AtAccept =>
      (* go s.handleConn(conn) *)
      Some {| caller := caller w; listener := AtSelect;
              handlers := handlers w ++ [Spawned]; wg := wg w;
              listenerClosed := listenerClosed w |}
    | _ => None
    end
  | AcceptFails =>
    match listener w with
    | AtAccept =>
      (* return err, and the deferred listener.Close() *)
      Some {| caller := caller w; listener := ListenerReturned;
              handlers := handlers w; wg := wg w;
              listenerClosed := true |}
    | _ => None
    end
  | CloseListener =>
    match listener w with
    | AtClose =>
      Some {| caller := caller w; listener := AtWait;
              handlers := handlers w; wg := wg w;
              listenerClosed := true |}
    | _ => None
    end
  | CloseFails =>
    match listener w with
    | AtClose =>
      Some {| caller := caller w; listener := ListenerReturned;
              handlers := handlers w; wg := wg w;
              listenerClosed := listenerClosed w |}
    | _ => None
    end
  | WaitPasses =>
    match listener w with
    | AtWait =>
      if wg w =? 0 then
        Some {| caller := caller w; listener := AtNotify;
                handlers := handlers w; wg := wg w;
                listenerClosed := listenerClosed w |}
      else None
    | _ => None
    end
  | Notify =>
    match listener w, caller w with
    | AtNotify, CallerWaiting =>
      Some {| caller := CallerReturned; listener := AtReturn;
              handlers := handlers w; wg := wg w;
              listenerClosed := listenerClosed w |}
    | _, _ => None
    end
  | HandlerAdd i =>
    match handlers w !! i with
    | Some Spawned =>
      Some {| caller := caller w; listener := listener w;
              handlers := <[i := Serving]> (handlers w); wg := wg w + 1;
              listenerClosed := listenerClosed w |}
    | _ => None
    end
  | HandlerDone i =>
    match handlers w !! i with
    | Some Serving =>
      Some {| caller := caller w; listener := listener w;
              handlers := <[i := Closing]> (handlers w); wg := wg w - 1;
              listenerClosed := listenerClosed w |}
    | _ => None
    end
  | HandlerClose i =>
    match handlers w !! i with
    | Some Closing =>
      Some {| caller := caller w; listener := listener w;
              handlers := <[i := Finished]> (handlers w); wg := wg w;
              listenerClosed := listenerClosed w |}
    | _ => None
    end
  | LoopReturns =>
    match listener w with
    | AtReturn =>
      (* return nil, and the deferred listener.Close() *)
      Some {| caller := caller w; listener := ListenerReturned;
              handlers := handlers w; wg := wg w;
              listenerClosed := true |}
    | _ => None
    end
  end.

(** A schedule, from a world. *)
Fixpoint run (sched : list label) (w : world) : option world :=
  match sched with
  | [] => Some w
  | l :: sched' =>
    match step l w with
    | Some w' => run sched' w'
    | None => None
    end
  end.

(** The loop has taken the shutdown request, or has returned. *)
Definition pastSelect (pc : listenerPc) : bool :=
  match pc with
  | AtSelect | AtAccept => false
  | _ => true
  end.

(** The handlers that have counted themselves in and have not yet run
    their [s.wg.Done()]. *)
Fixpoint serving (hs : list handlerPc) : Z :=
  match hs with
  | [] => 0
  | Serving :: hs' => 1 + serving hs'
  | _ :: hs' => serving hs'
  end.

(** A connection is accepted while the caller is already in [Shutdown]. *)
Definition schedLateAccept : list label :=
  [Select; CallShutdown; AcceptOne].

(** ... and [Shutdown] returns before its handler has started. *)
Definition schedEarlyReturn : list label :=
  schedLateAccept ++ [Select; CloseListener; WaitPasses; Notify].

(** A connection served to its end and closed, then the shutdown. *)
Definition schedDrained : list label :=
  [Select; AcceptOne; HandlerAdd 0; CallShutdown; Select; CloseListener;
   HandlerDone 0; HandlerClose 0; WaitPasses; Notify].

(** A connection accepted before [Shutdown] is called, whose handler has
    not reached its [s.wg.Add(1)] when the wait is made. *)
Definition schedNotCounted : list label :=
  [Select; AcceptOne; CallShutdown; Select; CloseListener; WaitPasses;
   Notify].

(** A connection in service when [Shutdown] is called, whose handler has
    run [s.wg.Done()] but not yet [conn.Close()] when the wait is made. *)
Definition schedStillOpen : list label :=
  [Select; AcceptOne; HandlerAdd 0; CallShutdown; Select; CloseListener;
   HandlerDone 0; WaitPasses; Notify].

(** What holds in every world a schedule reaches. *)
Definition worldInv (w : world) : Prop :=
  wg w = serving (handlers w)
  /\ (listener w = AtWait \/ listener w = AtNotify -> listenerClosed w = true)
  /\ (caller w = CallerReturned ->
      listenerClosed w = true
      /\ (listener w = AtReturn \/ listener w = ListenerReturned)).

(** An endpoint name of two bytes, the UTF-8 encoding of U+00E9. *)
Definition metaAccent : Metadata :=
  {| EndpointType := EndpointRequest; UserID := 0; BodySize := 0;
     Timeout := 0; Endpoint := [xc3; xa9]; ContentType := [] |}.

(** ** [io.Reader] and [bytes.Buffer] *)

(** [Read] of an [io.Reader] on a buffer of [n] bytes: the bytes it got
    (at most [n]) and the error. *)
Class IoReader (R : Type) : Type := {
  io_Read : R -> nat -> (list byte * option error) * R;
  io_Read_le : forall r n, (length (fst (fst (io_Read r n))) <= n)%nat
}.

(** A [bytes.Buffer], by its unread bytes; [NewBuffer] is
    [bytes.NewBuffer]. *)
Record Buffer : Type := NewBuffer { unread : list byte }.

(** [Buffer.Read]: an empty buffer gives [io.EOF] (nil on a buffer of no
    bytes to fill); otherwise as many bytes as fit are copied. *)
Definition bufferRead (b : Buffer) (n : nat)
  : (list byte * option error) * Buffer :=
  match unread b with
  | [] => if (n =? 0)%nat then (([], None), b) else (([], Some EOF), b)
  | _ => ((take n (unread b), None), NewBuffer (drop n (unread b)))
  end.

#[global] Instance Buffer_IoReader : IoReader Buffer.
Proof.
  refine {| io_Read := bufferRead |}.
  intros b n. unfold bufferRead.
  destruct (unread b) as [|x l]; [destruct (n =? 0)%nat; cbn; lia|].
  cbn [fst]. rewrite length_take. lia.
Defined.

(** ** metadata.go, continued *)

(** [DecodeMetadataReader]: six reads, of 1, 8, 8, 8, 100 and 100 bytes;
    the count of each is dropped; the integer buffer is reused as it is,
    the string buffer is zeroed between its two reads. *)
Definition DecodeMetadataReader {R : Type} `{IoReader R} (r : R)
  : (Metadata * option error) * R :=
  let m := zeroMetadata in
  let bbuf := replicate 1 x00 in
  let nbuf := replicate 8 x00 in
  let sbuf := replicate headerEndpointSize x00 in
  match io_Read r (length bbuf) with
  | ((_, Some err), r) => ((m, Some err), r)
  | ((got, None), r) =>
  let bbuf := filled bbuf got in
  let m := {| EndpointType := bbuf !!! 0%nat; UserID := UserID m;
              BodySize := BodySize m; Timeout := Timeout m;
              Endpoint := Endpoint m; ContentType := ContentType m |} in
  match io_Read r (length nbuf) with
  | ((_, Some err), r) => ((m, Some err), r)
  | ((got, None), r) =>
  let nbuf := filled nbuf got in
  let m := {| EndpointType := EndpointType m;
              UserID := Go.int64 (binary.Uint64 nbuf);
              BodySize := BodySize m; Timeout := Timeout m;
              Endpoint := Endpoint m; ContentType := ContentType m |} in
  match io_Read r (length nbuf) with
  | ((_, Some err), r) => ((m, Some err), r)
  | ((got, None), r) =>
  let nbuf := filled nbuf got in
  let m := {| EndpointType := EndpointType m; UserID := UserID m;
              BodySize := BodySize m;
              Timeout := Go.int64 (Millisecond *
                           Go.int64 (binary.Uint64 nbuf));
              Endpoint := Endpoint m; ContentType := ContentType m |} in
  match io_Read r (length nbuf) with
  | ((_, Some err), r) => ((m, Some err), r)
  | ((got, None), r) =>
  let nbuf := filled nbuf got in
  let m := {| EndpointType := EndpointType m; UserID := UserID m;
              BodySize := Go.int64 (binary.Uint64 nbuf);
              Timeout := Timeout m;
              Endpoint := Endpoint m; ContentType := ContentType m |} in
  match io_Read r (length sbuf) with
  | ((_, Some err), r) => ((m, Some err), r)
  | ((got, None), r) =>
  let sbuf := filled sbuf got in
  let m := {| EndpointType := EndpointType m; UserID := UserID m;
              BodySize := BodySize m; Timeout := Timeout m;
              Endpoint := Endpoint m;
              ContentType := gostrings.Trim sbuf x00 |} in
  let sbuf := replicate (length sbuf) x00 in
  match io_Read r (length sbuf) with
  | ((_, Some err), r) => ((m, Some err), r)
  | ((got, None), r) =>
  let sbuf := filled sbuf got in
  let m := {| EndpointType := EndpointType m; UserID := UserID m;
              BodySize := BodySize m; Timeout := Timeout m;
              Endpoint := gostrings.Trim sbuf x00;
              ContentType := ContentType m |} in
  ((m, None), r)
  end end end end end end.

(** The metadata [WriteData] and [WriteDataReader] build for a frame:
    [Metadata{BodySize: int64(len(body)), Endpoint: endpoint}]. *)
Definition frameMeta (endpoint : gostring) (body : list byte) : Metadata :=
  {| EndpointType := x00; UserID := 0;
     BodySize := Go.int64 (Z.of_nat (length body));
     Timeout := 0; Endpoint := endpoint; ContentType := [] |}.

(** A name that survives the header: ASCII bytes, no NUL byte at either
    end, at most [headerEndpointSize] bytes. *)
Definition wireName (name : gostring) : Prop :=
  ascii_only name /\ nul_free_ends name
  /\ (length name <= headerEndpointSize)%nat.

(** The bytes still to arrive on a simulated connection. *)
Definition pending (k : simConn) : nat := length (concat (inbox k)).

(** The accept results that do not end the loop by themselves: a
    connection, a timeout, a transient error, another [net.Error]. *)
Definition benignEvent {C : Type} (ev : listenEvent C) : Prop :=
  match ev with
  | EvAccept (AcceptError _) => False
  | EvAccept _ => True
  | _ => False
  end.

(** The transient errors among the events. *)
Fixpoint temporaryCount {C : Type} (evs : list (listenEvent C)) : Z :=
  match evs with
  | [] => 0
  | EvAccept (AcceptTemporary _) :: evs' => 1 + temporaryCount evs'
  | _ :: evs' => temporaryCount evs'
  end.

(** The accept loop stops on an accept error before the caller enters
    [Shutdown]. *)
Definition schedListenerDied : list label := [Select; AcceptFails].

(** A server with the echo handler under the name echo. *)
Definition serverEcho : Server simConn :=
  {| MaxRetries := 10; MaxTimeout := 0; Protocol := ProtocolTCP;
     URI := str "127.0.0.1:1337"; Log := false;
     requestEndpoints := Some {[ str "echo" := echoEndpoint ]};
     streamingEndpoints := None |}.

(** The caller and the loop agree on how far the shutdown has come: the
    request is taken in one step of both, so the caller waits for the
    notification exactly when the loop is in [handleShutdown] or has
    left it. *)
Definition inStep (c : callerPc) (l : listenerPc) : bool :=
  match c, l with
  | (CallerIdle | CallerSending), (AtSelect | AtAccept | ListenerReturned) =>
    true
  | CallerWaiting, (AtClose | AtWait | AtNotify | ListenerReturned) => true
  | CallerReturned, (AtReturn | ListenerReturned) => true
  | _, _ => false
  end.

(** The schedule that lets every handler run to its end, the handlers
    numbered from [i] on. *)
Fixpoint drainFrom (i : nat) (hs : list handlerPc) : list label :=
  match hs with
  | [] => []
  | Spawned :: hs' =>
    HandlerAdd i :: HandlerDone i :: HandlerClose i :: drainFrom (S i) hs'
  | Serving :: hs' => HandlerDone i :: HandlerClose i :: drainFrom (S i) hs'
  | Closing :: hs' => HandlerClose i :: drainFrom (S i) hs'
  | Finished :: hs' => drainFrom (S i) hs'
  end.

(** What is left for the loop and the caller to do until [Shutdown]
    returns, once no handler is serving. *)
Definition finish (c : callerPc) (l : listenerPc) : list label :=
  match c with CallerIdle => [CallShutdown] | _ => [] end
  ++ match l with
     | AtSelect => [Select; CloseListener; WaitPasses; Notify]
     | AtAccept => [AcceptNothing; Select; CloseListener; WaitPasses; Notify]
     | AtClose => [CloseListener; WaitPasses; Notify]
     | AtWait => [WaitPasses; Notify]
     | AtNotify => [Notify]
     | AtReturn | ListenerReturned => []
     end.

(** Two connections, one being served and one just accepted, when the
    caller enters [Shutdown]. *)
Definition schedTwoOpen : list label :=
  [Select; AcceptOne; HandlerAdd 0; Select; AcceptOne; CallShutdown].

(** The connection a turn of the accept loop hands to a new handler:
    the accepted one, or none ([nil]) after a [net.Error] that is neither
    a timeout nor temporary, which the [switch] lets through. *)
Definition handedOver {C : Type} (ev : listenEvent C) : option (option C) :=
  match ev with
  | EvAccept (AcceptConn k) => Some (Some k)
  | EvAccept (AcceptNetError _) => Some None
  | _ => None
  end.

(** The handlers among the actions of the loop, by their connection. *)
Definition started {C : Type} (acts : list (listenAction C))
  : list (option C) :=
  omap (fun a => match a with ActServe k => Some k | ActSleep _ => None end)
       acts.

(** [k'] comes from [k] by calls none of which is [Close]: the
    connection is as open or closed as it was. *)
Definition keptOpen (k k' : simConn) : Prop :=
  isClosed k' = isClosed k
  /\ exists more,
       calls k' = calls k ++ more
       /\ Forall (fun call => call <> CallClose) more.

(** * Part II: properties *)

Section CodecFacts.

Lemma PutUint64_le64 (ib : list byte) (v : Z) :
  length ib = 8%nat -> binary.PutUint64 ib v = le64 v.
Proof.
  intros Hlen.
  do 9 (destruct ib as [|? ib]; try discriminate Hlen).
  reflexivity.
Qed.

(** Go writes the little-endian value as a flat disjunction of shifted
    bytes; it is the nested one of the library. *)
Lemma Uint64_le_combine (b : list byte) :
  length b = 8%nat -> binary.Uint64 b = le_combine b.
Proof.
  intros Hlen.
  do 9 (destruct b as [|? b]; try discriminate Hlen).
  unfold binary.Uint64. cbn [lookup_total list_lookup_total].
  cbv [le_combine].
  rewrite ?Z.shiftl_0_l, ?Z.lor_0_r.
  rewrite !Z.shiftl_lor, !Z.shiftl_shiftl by lia.
  rewrite !Z.lor_assoc. reflexivity.
Qed.

Lemma le64_le_split (v : Z) : le64 v = le_split 8 v.
Proof.
  unfold le64. cbv [le_split].
  rewrite !Z.shiftr_shiftr by lia. reflexivity.
Qed.

Lemma Uint64_le64 (v : Z) : binary.Uint64 (le64 v) = v mod 2 ^ 64.
Proof.
  rewrite Uint64_le_combine by reflexivity.
  rewrite le64_le_split. apply le_combine_split.
Qed.

Lemma int64_uint64 (x : Z) :
  Go.is_int64 x -> Go.int64 (Go.uint64 x mod 2 ^ 64) = x.
Proof.
  unfold Go.is_int64, Go.minInt64, Go.maxInt64, Go.int64, Go.uint64.
  intros Hx. rewrite Z.mod_mod by lia.
  rewrite Zplus_mod_idemp_l.
  rewrite Z.mod_small by lia. lia.
Qed.

Lemma int64_small (x : Z) : Go.is_int64 x -> Go.int64 x = x.
Proof.
  unfold Go.is_int64, Go.minInt64, Go.maxInt64, Go.int64.
  intros Hx. rewrite Z.mod_small by lia. lia.
Qed.

Lemma copyString_length off width rs b :
  length (copyString off width rs b) = length b.
Proof.
  revert b. induction rs as [|[i c] rs IH]; intros b; cbn; [done|].
  destruct (width <=? i)%nat; [done|]. by rewrite IH, length_insert.
Qed.

Lemma field_length width s : length (field width s) = width.
Proof. unfold field. by rewrite copyString_length, length_replicate. Qed.

(** The loop only writes inside its own region of the header. *)
Lemma copyString_region off width rs (pre mid post : list byte) :
  length pre = off -> length mid = width ->
  copyString off width rs (pre ++ mid ++ post)
  = pre ++ copyString 0 width rs mid ++ post.
Proof.
  intros Hpre. revert mid.
  induction rs as [|[i c] rs IH]; intros mid Hmid; cbn; [done|].
  destruct (width <=? i)%nat eqn:Hi; [done|].
  apply Nat.leb_gt in Hi.
  rewrite Nat.add_0_r.
  replace (i + off)%nat with (length pre + i)%nat by lia.
  rewrite insert_app_r, insert_app_l by lia.
  apply IH. by rewrite length_insert.
Qed.

(** The layout of the header [Encode] builds: the tag, three little-endian
    integers and the two string regions. *)
Lemma Encode_layout (m : Metadata) :
  Encode m =
    EndpointType m
      :: le64 (Go.uint64 (UserID m))
      ++ le64 (Go.uint64 (Z.quot (Timeout m) Millisecond))
      ++ le64 (Go.uint64 (BodySize m))
      ++ field headerContentTypeSize (ContentType m)
      ++ field headerEndpointSize (Endpoint m).
Proof.
  unfold Encode.
  rewrite !PutUint64_le64 by reflexivity.
  unfold le64 at 1. cbn [length copyClear].
  change (replicate headerSize x00)
    with (replicate 25 x00 ++ replicate 100 x00 ++ replicate 100 x00).
  cbn [replicate app lookup_total list_lookup_total insert list_insert
       Nat.add].
  rewrite !PutUint64_le64 by reflexivity.
  unfold le64. cbn [length copyClear].
  cbn [replicate app lookup_total list_lookup_total insert list_insert
       Nat.add].
  rewrite !PutUint64_le64 by reflexivity.
  unfold le64. cbn [length copyClear].
  cbn [replicate app lookup_total list_lookup_total insert list_insert
       Nat.add].
  match goal with
  | |- copyString _ _ _ (copyString _ _ _ ?b) = _ =>
      change b with (take 25 b ++ replicate 100 x00 ++ replicate 100 x00)
  end.
  rewrite (copyString_region 25 headerContentTypeSize) by reflexivity.
  rewrite app_assoc.
  rewrite <- (app_nil_r (replicate 100 x00)) at 2.
  rewrite (copyString_region 125 headerEndpointSize).
  - rewrite app_nil_r, <- app_assoc. reflexivity.
  - rewrite length_app, copyString_length. reflexivity.
  - reflexivity.
Qed.

Lemma Encode_length (m : Metadata) : length (Encode m) = headerSize.
Proof.
  rewrite Encode_layout. cbn [length]. rewrite !length_app, !field_length.
  reflexivity.
Qed.

(** On ASCII bytes the range yields every byte at its own index, and the
    loop copies the string over the start of its region. *)
Lemma copyString_ascii (s : gostring) :
  ascii_only s ->
  forall (pre mid : list byte) (width i : nat),
    i = length pre -> width = (length pre + length mid)%nat ->
    copyString 0 width (utf8.range_from 0 i s) (pre ++ mid)
    = pre ++ take (length mid) s ++ drop (length s) mid.
Proof.
  induction 1 as [|b t Hb Ht IH]; intros pre mid width i -> ->.
  - cbn. by rewrite take_nil, drop_0.
  - cbn [utf8.range_from].
    apply Z.ltb_lt in Hb. rewrite Hb. cbn [copyString].
    destruct mid as [|x mid'].
    + cbn [length]. rewrite Nat.add_0_r, Nat.leb_refl.
      by rewrite take_0, drop_nil.
    + replace (length pre + length (x :: mid') <=? length pre)%nat
        with false by (symmetry; apply Nat.leb_gt; cbn [length]; lia).
      rewrite byte.of_Z_unsigned.
      rewrite insert_app_r. cbn [insert list_insert].
      rewrite (cons_middle b pre mid'), app_assoc.
      rewrite (IH (pre ++ [b]) mid').
      * rewrite <- app_assoc. reflexivity.
      * rewrite length_app. cbn [length]. lia.
      * rewrite length_app. cbn [length]. lia.
Qed.

Lemma field_ascii (width : nat) (s : gostring) :
  ascii_only s ->
  field width s = take width s ++ replicate (width - length s) x00.
Proof.
  intros Hs. unfold field, utf8.range_string.
  pose proof (copyString_ascii s Hs [] (replicate width x00) width 0%nat)
    as Hcopy.
  cbn [length app] in Hcopy. rewrite length_replicate in Hcopy.
  rewrite Hcopy by done. by rewrite drop_replicate.
Qed.

Lemma trimLeftByte_replicate (k : nat) (l : list byte) (c : byte) :
  gostrings.trimLeftByte (replicate k c ++ l) c = gostrings.trimLeftByte l c.
Proof.
  induction k as [|k IH]; [done|].
  cbn. by rewrite decide_True.
Qed.

Lemma trimLeftByte_id (s : list byte) (c : byte) :
  head s <> Some c -> gostrings.trimLeftByte s c = s.
Proof.
  destruct s as [|b t]; [done|]. cbn. intros Hb.
  rewrite decide_False; [done|]. congruence.
Qed.

Lemma trimRightByte_padding (s : list byte) (k : nat) (c : byte) :
  gostrings.trimRightByte (s ++ replicate k c) c = gostrings.trimRightByte s c.
Proof.
  unfold gostrings.trimRightByte.
  by rewrite reverse_app, reverse_replicate, trimLeftByte_replicate.
Qed.

Lemma trimRightByte_id (s : list byte) (c : byte) :
  last s <> Some c -> gostrings.trimRightByte s c = s.
Proof.
  intros Hs. unfold gostrings.trimRightByte.
  rewrite trimLeftByte_id by (by rewrite head_reverse).
  apply reverse_involutive.
Qed.

(** Decoding cannot tell the padding from NUL bytes of the string. *)
Lemma Trim_padding (s : list byte) (k : nat) :
  gostrings.Trim (s ++ replicate k x00) x00 = gostrings.Trim s x00.
Proof. unfold gostrings.Trim. by rewrite trimRightByte_padding. Qed.

Lemma Trim_id (s : list byte) : nul_free_ends s -> gostrings.Trim s x00 = s.
Proof.
  intros [Hh Hl]. unfold gostrings.Trim.
  rewrite trimRightByte_id by done. by apply trimLeftByte_id.
Qed.

(** Decoding a header of the layout of [Encode_layout]. *)
Lemma DecodeMetadata_layout (e : byte) (u t z : Z) (f1 f2 : list byte) :
  length f1 = headerContentTypeSize -> length f2 = headerEndpointSize ->
  DecodeMetadata (e :: le64 u ++ le64 t ++ le64 z ++ f1 ++ f2)
  = ({| EndpointType := e;
        UserID := Go.int64 (u mod 2 ^ 64);
        Timeout := Go.int64 (Millisecond * Go.int64 (t mod 2 ^ 64));
        BodySize := Go.int64 (z mod 2 ^ 64);
        ContentType := gostrings.Trim f1 x00;
        Endpoint := gostrings.Trim f2 x00 |}, None).
Proof.
  intros Hf1 Hf2. unfold DecodeMetadata.
  replace (length (e :: le64 u ++ le64 t ++ le64 z ++ f1 ++ f2))
    with headerSize
    by (cbn [length le64 app]; rewrite length_app, Hf1, Hf2; reflexivity).
  rewrite Nat.ltb_irrefl.
  unfold Go.slice, headerContentTypeSize, headerEndpointSize, headerSize in *.
  cbn [le64 app drop take Nat.sub Nat.add lookup_total list_lookup_total].
  rewrite take_0, drop_0.
  fold (le64 u). fold (le64 t). fold (le64 z).
  rewrite !Uint64_le64.
  rewrite (take_app_length' f1 f2 100) by done.
  rewrite (drop_app_length' f1 f2 100) by done.
  rewrite (take_ge f2 100) by lia.
  reflexivity.
Qed.

End CodecFacts.

(** ** The codec claims *)

(** C8.  [DecodeMetadata] fails, with [io.EOF] for an incomplete header,
    exactly when the buffer is shorter than [headerSize]; on any longer
    buffer it succeeds, whatever the bytes are: the endpoint type is the
    first byte as it stands, also outside [EndpointRequest] and
    [EndpointStream], and the other fields are the fixed unpacking of the
    byte regions. *)
Theorem DecodeMetadata_incomplete_iff (bytes : list byte) :
  (snd (DecodeMetadata bytes) = Some EOF <-> (length bytes < headerSize)%nat)
  /\ (snd (DecodeMetadata bytes) = None <-> (headerSize <= length bytes)%nat)
  /\ ((length bytes < headerSize)%nat ->
        DecodeMetadata bytes = (zeroMetadata, Some EOF))
  /\ ((headerSize <= length bytes)%nat ->
        EndpointType (fst (DecodeMetadata bytes)) = bytes !!! 0%nat
        /\ UserID (fst (DecodeMetadata bytes))
           = Go.int64 (binary.Uint64 (Go.slice 1 9 bytes))
        /\ BodySize (fst (DecodeMetadata bytes))
           = Go.int64 (binary.Uint64 (Go.slice 17 25 bytes))
        /\ Endpoint (fst (DecodeMetadata bytes))
           = gostrings.Trim (Go.slice 125 headerSize bytes) x00).
Proof.
  unfold DecodeMetadata.
  destruct (length bytes <? headerSize)%nat eqn:Hlen.
  - apply Nat.ltb_lt in Hlen. cbn [fst snd].
    repeat split; try done; try lia.
  - apply Nat.ltb_ge in Hlen. cbn [fst snd].
    repeat split; try done; try lia.
Qed.

(** C8 at a header whose first byte is neither endpoint type. *)
Lemma DecodeMetadata_incomplete_iff_witness :
  (headerSize <= length (x07 :: replicate 224 x00))%nat
  /\ EndpointType (fst (DecodeMetadata (x07 :: replicate 224 x00))) = x07.
Proof.
  split; [vm_compute; lia|].
  apply (DecodeMetadata_incomplete_iff (x07 :: replicate 224 x00)).
  vm_compute. lia.
Defined.

Lemma Encode_regions (m : Metadata) (f : stringField) :
  fieldRegion f (Encode m) = field (fieldWidth f) (fieldOf f m).
Proof.
  rewrite Encode_layout.
  pose proof (field_length headerContentTypeSize (ContentType m)) as H1.
  pose proof (field_length headerEndpointSize (Endpoint m)) as H2.
  destruct f; unfold fieldRegion, fieldWidth, fieldOf, Go.slice,
    headerSize, headerContentTypeSize, headerEndpointSize in *;
    cbn [le64 app drop take Nat.sub Nat.add].
  - rewrite drop_0. by apply take_app_length'.
  - rewrite drop_app_length' by done. apply take_ge. lia.
Qed.

Lemma DecodeMetadata_Encode (m : Metadata) :
  DecodeMetadata (Encode m)
  = ({| EndpointType := EndpointType m;
        UserID := Go.int64 (Go.uint64 (UserID m) mod 2 ^ 64);
        Timeout := Go.int64 (Millisecond * Go.int64
                     (Go.uint64 (Z.quot (Timeout m) Millisecond) mod 2 ^ 64));
        BodySize := Go.int64 (Go.uint64 (BodySize m) mod 2 ^ 64);
        ContentType :=
          gostrings.Trim (field headerContentTypeSize (ContentType m)) x00;
        Endpoint :=
          gostrings.Trim (field headerEndpointSize (Endpoint m)) x00 |},
     None).
Proof.
  rewrite Encode_layout. apply DecodeMetadata_layout; apply field_length.
Qed.

(** A timeout of whole milliseconds survives the division on encoding and
    the multiplication on decoding. *)
Lemma Timeout_roundtrip (t : Z) :
  Go.is_int64 t -> (Millisecond | t) ->
  Go.int64 (Millisecond * Go.int64
    (Go.uint64 (Z.quot t Millisecond) mod 2 ^ 64)) = t.
Proof.
  intros Ht [q ->]. unfold Millisecond in *.
  rewrite Z.quot_mul by lia.
  assert (Go.is_int64 q) as Hq
    by (unfold Go.is_int64, Go.minInt64, Go.maxInt64 in *; lia).
  rewrite int64_uint64 by done.
  rewrite int64_small; [lia|].
  by replace (1000000 * q) with (q * 1000000) by lia.
Qed.

(** A short ASCII string without NUL bytes at its ends comes back from
    its region. *)
Lemma field_roundtrip (width : nat) (s : gostring) :
  ascii_only s -> nul_free_ends s -> (length s <= width)%nat ->
  gostrings.Trim (field width s) x00 = s.
Proof.
  intros Ha Hn Hlen.
  rewrite field_ascii by done. rewrite take_ge by done.
  rewrite Trim_padding. by apply Trim_id.
Qed.

(** C1, as the code has it.  Decoding the encoded header gives the
    metadata back when the integers are 64-bit values, the timeout is a
    whole number of milliseconds, and the two strings fit their fields,
    consist of ASCII bytes and neither start nor end with a NUL byte. *)
Theorem decode_encode_roundtrip (m : Metadata) :
  Go.is_int64 (UserID m) -> Go.is_int64 (BodySize m) ->
  Go.is_int64 (Timeout m) -> (Millisecond | Timeout m) ->
  (length (Endpoint m) <= headerEndpointSize)%nat ->
  (length (ContentType m) <= headerContentTypeSize)%nat ->
  ascii_only (Endpoint m) -> ascii_only (ContentType m) ->
  nul_free_ends (Endpoint m) -> nul_free_ends (ContentType m) ->
  DecodeMetadata (Encode m) = (m, None).
Proof.
  intros Hu Hb Ht Hms Hle Hlc Hae Hac Hne Hnc.
  rewrite DecodeMetadata_Encode.
  rewrite !int64_uint64, Timeout_roundtrip, !field_roundtrip by done.
  by destruct m.
Qed.

Lemma decode_encode_roundtrip_witness :
  DecodeMetadata (Encode metaEcho) = (metaEcho, None).
Proof.
  apply (decode_encode_roundtrip metaEcho);
    try (vm_compute; intuition congruence);
    try (vm_compute; lia);
    try (repeat constructor).
  exists 456. reflexivity.
Defined.

(** C1 as stated fails: a name that ends in a NUL byte fits its field
    and yet comes back without that byte. *)
Lemma decode_encode_trailing_nul_lost :
  Go.is_int64 (UserID metaTrailingNul)
  /\ Go.is_int64 (BodySize metaTrailingNul)
  /\ (Millisecond | Timeout metaTrailingNul)
  /\ (length (Endpoint metaTrailingNul) <= headerEndpointSize)%nat
  /\ (length (ContentType metaTrailingNul) <= headerContentTypeSize)%nat
  /\ DecodeMetadata (Encode metaTrailingNul) <> (metaTrailingNul, None).
Proof.
  split; [vm_compute; split; discriminate|].
  split; [vm_compute; split; discriminate|].
  split; [exists 0; reflexivity|].
  split; [vm_compute; lia|].
  split; [vm_compute; lia|].
  vm_compute. discriminate.
Qed.

(** C7, as the code has it.  For a string field longer than its width N
    and made of ASCII bytes, the region of the encoded header is the
    first N bytes of the string, and decoding yields those N bytes with
    the NUL bytes at both ends trimmed: exactly the truncated string when
    its first and last bytes are not NUL. *)
Theorem encode_truncates (f : stringField) (m : Metadata) :
  (fieldWidth f < length (fieldOf f m))%nat ->
  ascii_only (fieldOf f m) ->
  fieldRegion f (Encode m) = take (fieldWidth f) (fieldOf f m)
  /\ fieldOf f (fst (DecodeMetadata (Encode m)))
     = gostrings.Trim (take (fieldWidth f) (fieldOf f m)) x00
  /\ (nul_free_ends (take (fieldWidth f) (fieldOf f m)) ->
      fieldOf f (fst (DecodeMetadata (Encode m)))
      = take (fieldWidth f) (fieldOf f m)).
Proof.
  intros Hlen Hascii.
  assert (field (fieldWidth f) (fieldOf f m)
          = take (fieldWidth f) (fieldOf f m)) as Hfield.
  { rewrite field_ascii by done.
    replace (fieldWidth f - length (fieldOf f m))%nat with 0%nat by lia.
    apply app_nil_r. }
  assert (fieldOf f (fst (DecodeMetadata (Encode m)))
          = gostrings.Trim (field (fieldWidth f) (fieldOf f m)) x00) as Hdec.
  { rewrite DecodeMetadata_Encode. by destruct f. }
  rewrite Encode_regions, Hdec, Hfield.
  split; [done|]. split; [done|]. apply Trim_id.
Qed.

Lemma encode_truncates_witness :
  fieldRegion FEndpoint (Encode metaBigName) = replicate 100 "a"%byte
  /\ Endpoint (fst (DecodeMetadata (Encode metaBigName)))
     = replicate 100 "a"%byte.
Proof.
  assert (fieldWidth FEndpoint < length (fieldOf FEndpoint metaBigName))%nat
    as Hlen by (vm_compute; lia).
  assert (ascii_only (fieldOf FEndpoint metaBigName)) as Hascii
    by (apply Forall_replicate; reflexivity).
  destruct (encode_truncates FEndpoint metaBigName Hlen Hascii)
    as (Hregion & _ & Hdec).
  split; [exact Hregion|].
  apply Hdec. split; vm_compute; discriminate.
Defined.

(** C7 as stated fails: the first 100 bytes of this name end in a NUL
    byte, which decoding takes for padding. *)
Lemma encode_truncates_nul_lost :
  (headerEndpointSize < length (Endpoint metaLongName))%nat
  /\ Endpoint (fst (DecodeMetadata (Encode metaLongName)))
     <> take headerEndpointSize (Endpoint metaLongName).
Proof.
  split; [vm_compute; lia|].
  vm_compute. discriminate.
Qed.

(** Why the two theorems above ask for ASCII bytes: the loops of [Encode]
    range over the runes of the string and store [byte(c)], so the two
    bytes of U+00E9 become the one byte E9 at the index of the first. *)
Example encode_non_ascii :
  fieldRegion FEndpoint (Encode metaAccent) = xe9 :: replicate 99 x00
  /\ Endpoint (fst (DecodeMetadata (Encode metaAccent))) = [xe9].
Proof. split; vm_compute; reflexivity. Qed.

(** ** The connection wrapper *)

Section ClientFacts.

Context {C : Type} `{NetConn C}.

Lemma make_bytes_nonneg (n : Z) :
  0 <= n -> Go.make_bytes n = Go.Returns (replicate (Z.to_nat n) x00).
Proof. intros Hn. unfold Go.make_bytes. by rewrite (proj2 (Z.ltb_ge n 0)). Qed.

Lemma make_bytes_negative (n : Z) :
  n < 0 -> Go.make_bytes n = Go.Panics "makeslice: len out of range".
Proof. intros Hn. unfold Go.make_bytes. by rewrite (proj2 (Z.ltb_lt n 0)). Qed.

(** The operations that test the flag: on a closed wrapper they fail
    with [errConnectionClosed] ([ReadBody] wraps it) and leave the
    wrapper, and so the connection, as they are. *)
Lemma closed_fails_fast (c : Client C) :
  closed c = true ->
  (forall b, Write c b = ((0, Some errConnectionClosed), c))
  /\ (forall meta, WriteMeta c meta = ((0, Some errConnectionClosed), c))
  /\ (forall name body,
        WriteData c name body = ((0, Some errConnectionClosed), c))
  /\ (forall name body,
        WriteDataReader c name body = ((0, Some errConnectionClosed), c))
  /\ (forall b, Read c b = ((b, 0, Some errConnectionClosed), c))
  /\ ReadMeta c = ((zeroMetadata, Some errConnectionClosed), c)
  /\ (forall meta, 0 <= BodySize meta ->
        ReadBody c meta
        = Go.Returns
            ((replicate (Z.to_nat (BodySize meta)) x00,
              Some (Wrap errConnectionClosed "could not read body")), c))
  /\ ReadData c = Go.Returns ((zeroMetadata, [], Some errConnectionClosed), c).
Proof.
  intros Hc.
  assert (forall b, Read c b = ((b, 0, Some errConnectionClosed), c)) as HRead
    by (intros b; unfold Read; by rewrite Hc).
  assert (ReadMeta c = ((zeroMetadata, Some errConnectionClosed), c)) as HMeta
    by (unfold ReadMeta; by rewrite HRead).
  repeat split; try done.
  - intros b. unfold Write. by rewrite Hc.
  - intros meta. unfold WriteMeta. by rewrite Hc.
  - intros name body. unfold WriteData. by rewrite Hc.
  - intros name body. unfold WriteDataReader. by rewrite Hc.
  - intros meta Hsize. unfold ReadBody.
    rewrite make_bytes_nonneg by done. by rewrite HRead.
  - unfold ReadData. by rewrite HMeta.
Qed.

(** The error [ReadBody] returns on a closed wrapper is
    [errConnectionClosed] under its wrap. *)
Lemma closed_ReadBody_cause (c : Client C) (meta : Metadata) :
  closed c = true -> 0 <= BodySize meta ->
  exists body e,
    ReadBody c meta = Go.Returns ((body, Some e), c)
    /\ Cause e = errConnectionClosed.
Proof.
  intros Hc Hsize.
  destruct (closed_fails_fast c Hc) as (_ & _ & _ & _ & _ & _ & HBody & _).
  rewrite (HBody meta Hsize). by do 2 eexists.
Qed.

(** [SetDeadline] does not look at the flag. *)
Lemma SetDeadline_passes_through (c : Client C) (t : Z) :
  SetDeadline c t
  = (fst (conn_SetDeadline (conn c) t),
     withConn c (snd (conn_SetDeadline (conn c) t))).
Proof. unfold SetDeadline. by destruct (conn_SetDeadline (conn c) t). Qed.

(** On an open wrapper the error of [ReadBody] is nil exactly when the
    error of the one [Read] on the connection is: the count plays no
    part. *)
Lemma ReadBody_error_is_Read_error (c : Client C) (meta : Metadata) :
  closed c = false -> 0 <= BodySize meta ->
  exists body c',
    ReadBody c meta
    = Go.Returns ((body, match snd (fst (conn_Read (conn c)
                                   (Z.to_nat (BodySize meta)))) with
                         | Some EOF => Some EOF
                         | None => None
                         | Some e => Some (Wrap e "could not read body")
                         end), c')
    /\ length body = Z.to_nat (BodySize meta).
Proof.
  intros Hc Hsize. unfold ReadBody, Read.
  rewrite make_bytes_nonneg, Hc, length_replicate by done.
  pose proof (conn_Read_le (conn c) (Z.to_nat (BodySize meta))) as Hle.
  destruct (conn_Read (conn c) (Z.to_nat (BodySize meta)))
    as [[got err] k]. cbn [fst snd] in *.
  assert (length (filled (replicate (Z.to_nat (BodySize meta)) x00) got)
          = Z.to_nat (BodySize meta)) as Hlen.
  { unfold filled. rewrite length_app, length_drop, length_replicate. lia. }
  destruct err as [[]|]; eauto.
Qed.

(** A negative body size makes [ReadBody] panic, open or closed. *)
Lemma ReadBody_negative_panics (c : Client C) (meta : Metadata) :
  BodySize meta < 0 ->
  ReadBody c meta = Go.Panics "makeslice: len out of range".
Proof. intros Hn. unfold ReadBody. by rewrite make_bytes_negative. Qed.

Lemma ReadBody_nonneg_returns (c : Client C) (meta : Metadata) :
  0 <= BodySize meta -> exists r, ReadBody c meta = Go.Returns r.
Proof.
  intros Hn. unfold ReadBody. rewrite make_bytes_nonneg by done.
  destruct (Read c _) as [[[body n] [[]|]] c']; eauto.
Qed.

End ClientFacts.

(** On the simulated connection: when the first segment to arrive holds
    the whole body, [ReadBody] returns it with a nil error. *)
Lemma ReadBody_whole_segment (seg : list byte) (rest : list (list byte))
    (meta : Metadata) :
  0 < BodySize meta -> (Z.to_nat (BodySize meta) <= length seg)%nat ->
  exists c',
    ReadBody (NewClientConn (simDial (seg :: rest))) meta
    = Go.Returns ((take (Z.to_nat (BodySize meta)) seg, None), c').
Proof.
  intros Hpos Hlen. unfold ReadBody, Read.
  rewrite make_bytes_nonneg by lia.
  cbn [NewClientConn closed conn]. rewrite length_replicate.
  cbn [conn_Read simConn_NetConn simRead simDial logCall isClosed inbox].
  destruct (Z.to_nat (BodySize meta)) as [|n] eqn:Hn; [lia|].
  destruct seg as [|b seg]; [cbn in Hlen; lia|].
  cbn [Nat.eqb takeSegment].
  eexists. f_equal. f_equal. f_equal. unfold filled.
  rewrite drop_ge; [apply app_nil_r|].
  rewrite length_replicate, length_take. lia.
Qed.

(** [Uint64] of eight bytes is an unsigned 64-bit value. *)
Lemma Uint64_range (b : list byte) :
  length b = 8%nat -> 0 <= binary.Uint64 b < 2 ^ 64.
Proof.
  intros Hlen. rewrite Uint64_le_combine by done.
  pose proof (le_combine_bound b) as Hb. by rewrite Hlen in Hb.
Qed.

(** C3 at its failing inputs.  With a body size of five, [ReadBody]
    returns the five bytes of a segment that holds them; when the peer
    closes after three bytes it returns three bytes and two zero bytes
    with a nil error, as for the full read, and so it does when the five
    bytes arrive in two segments.  The end of the stream is reported only
    when it comes before the first byte. *)
Theorem ReadBody_short_read_is_success :
  (exists c', ReadBody clientElevenBytes metaEcho
              = Go.Returns ((str "hello", None), c'))
  /\ (exists c', ReadBody clientThreeBytes metaEcho
                 = Go.Returns ((str "hel" ++ [x00; x00], None), c')
                 /\ inbox (conn c') = [])
  /\ (exists c', ReadBody clientTwoSegments metaEcho
                 = Go.Returns ((str "hel" ++ [x00; x00], None), c')
                 /\ inbox (conn c') = [str "lo"])
  /\ (exists c', ReadBody (NewClientConn (simDial [])) metaEcho
                 = Go.Returns ((replicate 5 x00, Some EOF), c')).
Proof.
  split; [eexists; vm_compute; reflexivity|].
  split; [eexists; split; vm_compute; reflexivity|].
  split; [eexists; split; vm_compute; reflexivity|].
  eexists; vm_compute; reflexivity.
Qed.

(** C5 at its failing input.  On a wrapper that [Close] has closed,
    [SetDeadline] calls the connection: the call is in the connection's
    record and the error is the connection's own, not
    [errConnectionClosed]. *)
Theorem SetDeadline_on_closed_wrapper :
  closed clientClosed = true
  /\ fst (SetDeadline clientClosed 7) = Some errNetClosing
  /\ fst (SetDeadline clientClosed 7) <> Some errConnectionClosed
  /\ calls (conn (snd (SetDeadline clientClosed 7)))
     = calls (conn clientClosed) ++ [CallSetDeadline 7].
Proof.
  split; [reflexivity|]. split; [reflexivity|].
  split; [vm_compute; discriminate|]. reflexivity.
Qed.

(** C10.  A header whose body size field holds 2^63 or more decodes
    without error to a negative body size, and [ReadBody] with that
    metadata panics in [make]; whenever [ReadBody] returns, the body size
    was not negative. *)
Theorem negative_body_size_panics {C : Type} `{NetConn C}
    (bytes : list byte) (c : Client C) :
  (headerSize <= length bytes)%nat ->
  2 ^ 63 <= binary.Uint64 (Go.slice 17 25 bytes) ->
  snd (DecodeMetadata bytes) = None
  /\ BodySize (fst (DecodeMetadata bytes)) < 0
  /\ ReadBody c (fst (DecodeMetadata bytes))
     = Go.Panics "makeslice: len out of range"
  /\ (forall (c' : Client C) (meta : Metadata),
        (exists r, ReadBody c' meta = Go.Returns r) -> 0 <= BodySize meta).
Proof.
  intros Hlen Hbig.
  assert (BodySize (fst (DecodeMetadata bytes)) < 0) as Hneg.
  { unfold DecodeMetadata.
    rewrite (proj2 (Nat.ltb_ge (length bytes) headerSize)) by done.
    cbn [fst BodySize].
    assert (length (Go.slice 17 25 bytes) = 8%nat) as H8.
    { unfold Go.slice, headerSize in *.
      rewrite length_take, length_drop. lia. }
    pose proof (Uint64_range _ H8) as Hr.
    unfold Go.int64.
    replace (binary.Uint64 (Go.slice 17 25 bytes) + 2 ^ 63)
      with (binary.Uint64 (Go.slice 17 25 bytes) - 2 ^ 63 + 1 * 2 ^ 64)
      by lia.
    rewrite Z.mod_add by lia. rewrite Z.mod_small by lia. lia. }
  split.
  { unfold DecodeMetadata.
    by rewrite (proj2 (Nat.ltb_ge (length bytes) headerSize)). }
  split; [done|]. split; [by apply ReadBody_negative_panics|].
  intros c' meta [r Hr].
  destruct (Z.lt_ge_cases (BodySize meta) 0) as [Hlt|Hge]; [|done].
  rewrite ReadBody_negative_panics in Hr by done. discriminate.
Qed.

Lemma negative_body_size_panics_witness :
  BodySize (fst (DecodeMetadata headerHugeBody)) = -1
  /\ ReadBody clientElevenBytes (fst (DecodeMetadata headerHugeBody))
     = Go.Panics "makeslice: len out of range".
Proof.
  split; [reflexivity|].
  apply (negative_body_size_panics headerHugeBody clientElevenBytes).
  - vm_compute. lia.
  - vm_compute. discriminate.
Defined.

(** ** The endpoint registry *)

Section RegistryFacts.

Context {C : Type} `{NetConn C}.

Lemma NewServer_maps (protocol uri : gostring) (s : Server C) :
  NewServer protocol uri = (Some s, None) ->
  requestEndpoints s = Some ∅ /\ streamingEndpoints s = None.
Proof.
  unfold NewServer. case_decide; [|discriminate].
  intros [= <-]. done.
Qed.

(** On a map that is not nil a registration inserts or replaces. *)
Lemma AddRequestEndpoint_last_wins (s : Server C) (name : gostring)
    (e1 e2 : RequestEndpoint) :
  requestEndpoints s <> None ->
  exists s1 s2,
    AddRequestEndpoint s name e1 = Go.Returns s1
    /\ AddRequestEndpoint s1 name e2 = Go.Returns s2
    /\ mapLookup (requestEndpoints s2) name = Some e2.
Proof.
  intros Hmap. unfold AddRequestEndpoint.
  destruct (requestEndpoints s) as [table|] eqn:Ht; [|done].
  cbn [mapAssign]. do 2 eexists. split; [done|].
  cbn [requestEndpoints mapAssign]. split; [done|].
  cbn [requestEndpoints mapLookup]. apply lookup_insert_eq.
Qed.

Lemma AddStreamingEndpoint_last_wins (s : Server C) (name : gostring)
    (e1 e2 : StreamingEndpoint C) :
  streamingEndpoints s <> None ->
  exists s1 s2,
    AddStreamingEndpoint s name e1 = Go.Returns s1
    /\ AddStreamingEndpoint s1 name e2 = Go.Returns s2
    /\ mapLookup (streamingEndpoints s2) name = Some e2.
Proof.
  intros Hmap. unfold AddStreamingEndpoint.
  destruct (streamingEndpoints s) as [table|] eqn:Ht; [|done].
  cbn [mapAssign]. do 2 eexists. split; [done|].
  cbn [streamingEndpoints mapAssign]. split; [done|].
  cbn [streamingEndpoints mapLookup]. apply lookup_insert_eq.
Qed.

(** C4 on the code.  On a server made by [NewServer], registering a
    request handler twice under a name leaves the second one, and
    registering a stream handler panics: the constructor makes the map of
    the request handlers and leaves the one of the stream handlers nil. *)
Theorem AddStreamingEndpoint_on_NewServer (protocol uri name : gostring)
    (s : Server C) (e1 e2 : RequestEndpoint) (h : StreamingEndpoint C) :
  NewServer protocol uri = (Some s, None) ->
  (exists s1 s2,
     AddRequestEndpoint s name e1 = Go.Returns s1
     /\ AddRequestEndpoint s1 name e2 = Go.Returns s2
     /\ mapLookup (requestEndpoints s2) name = Some e2)
  /\ AddStreamingEndpoint s name h
     = Go.Panics "assignment to entry in nil map".
Proof.
  intros Hnew. destruct (NewServer_maps _ _ _ Hnew) as [Hreq Hstr].
  split.
  - apply AddRequestEndpoint_last_wins. by rewrite Hreq.
  - unfold AddStreamingEndpoint. by rewrite Hstr.
Qed.

End RegistryFacts.

Lemma AddStreamingEndpoint_on_NewServer_witness :
  exists s : Server simConn,
    NewServer ProtocolTCP (str "127.0.0.1:1337") = (Some s, None)
    /\ AddStreamingEndpoint s (str "message") idleStream
       = Go.Panics "assignment to entry in nil map".
Proof.
  eexists. split; [reflexivity|].
  eapply (AddStreamingEndpoint_on_NewServer ProtocolTCP
            (str "127.0.0.1:1337") (str "message") _
            echoEndpoint failEndpoint idleStream).
  reflexivity.
Defined.

(** ** The dispatcher *)

Section DispatchFacts.

Context {C : Type} `{NetConn C}.
Variable now : Z.

Lemma dispatch_closed (s : Server C) (c : Client C) :
  closed c = true -> dispatch now s c = Go.Returns (false, c).
Proof.
  intros Hc. unfold dispatch.
  destruct (closed_fails_fast c Hc) as (_ & _ & _ & _ & _ & HMeta & _).
  by rewrite HMeta.
Qed.

Lemma dispatch_stream (s : Server C) (c c1 c2 : Client C)
    (meta : Metadata) (h : StreamingEndpoint C) (r : option error) :
  ReadMeta c = ((meta, None), c1) ->
  EndpointType meta = EndpointStream ->
  mapLookup (streamingEndpoints s) (Endpoint meta) = Some h ->
  h meta c1 = (r, c2) ->
  dispatch now s c
  = Go.Returns (match r with Some _ => false | None => true end, c2).
Proof.
  intros HMeta Htype Hlook Hh. unfold dispatch. rewrite HMeta.
  rewrite decide_False by (rewrite Htype; discriminate).
  rewrite decide_True by done.
  unfold handleStreamingConn. rewrite Hlook, Hh. by destruct r.
Qed.

(** C2, as the code has it.  When the header names a registered stream
    endpoint, the loop ends with the wrapper as the handler left it, and
    reads nothing more, if the handler returns an error or has closed the
    wrapper; after a nil return the loop goes on to its next turn. *)
Theorem stream_handler_return (s : Server C) (c c1 c2 : Client C)
    (meta : Metadata) (h : StreamingEndpoint C) (r : option error)
    (fuel : nat) :
  ReadMeta c = ((meta, None), c1) ->
  EndpointType meta = EndpointStream ->
  mapLookup (streamingEndpoints s) (Endpoint meta) = Some h ->
  h meta c1 = (r, c2) ->
  (r <> None \/ closed c2 = true ->
     serveLoop now (S (S fuel)) s c = Go.Returns (Some c2))
  /\ (r = None ->
      dispatch now s c = Go.Returns (true, c2)
      /\ serveLoop now (S fuel) s c = serveLoop now fuel s c2).
Proof.
  intros HMeta Htype Hlook Hh.
  pose proof (dispatch_stream s c c1 c2 meta h r HMeta Htype Hlook Hh) as Hd.
  split.
  - intros Hend. cbn [serveLoop]. rewrite Hd.
    destruct r as [e|]; [done|].
    destruct Hend as [Hr|Hc]; [done|].
    by rewrite dispatch_closed.
  - intros ->. split; [done|]. cbn [serveLoop]. by rewrite Hd.
Qed.

End DispatchFacts.

(** C2 at a handler that closes the wrapper: one header is read, the
    handler closes, and the loop ends without another call on the
    connection. *)
Lemma stream_handler_return_witness :
  exists c2 : Client simConn,
    serveLoop 0 2 serverClosing (NewClientConn connChat)
    = Go.Returns (Some c2)
    /\ calls (conn c2) = [CallRead 225; CallClose].
Proof.
  eexists. split.
  - eapply (stream_handler_return 0 serverClosing (NewClientConn connChat)
              _ _ _ closingStream None 0%nat).
    + vm_compute. reflexivity.
    + reflexivity.
    + reflexivity.
    + vm_compute. reflexivity.
    + right. reflexivity.
  - reflexivity.
Defined.

(** C2 as stated fails: after a stream handler has returned nil, leaving
    the wrapper open, the loop takes its next turn and reads the next
    header from the connection. *)
Lemma stream_handler_nil_reads_on :
  (exists c' : Client simConn,
     dispatch 0 serverChat (NewClientConn connChat) = Go.Returns (true, c')
     /\ calls (conn c') = [CallRead 225])
  /\ (exists k : simConn,
        handleConn 0 3 serverChat connChat = Go.Returns (Some k)
        /\ calls k = [CallRemoteAddr; CallRead 225; CallRead 225;
                      CallRead 225; CallClose; CallRemoteAddr]).
Proof.
  split; eexists; split; vm_compute; reflexivity.
Qed.

(** ** The accept loop *)

Section ListenFacts.

Context {C : Type} `{NetConn C}.

Lemma backoff_fits (k : nat) :
  (k <= 39)%nat -> Go.is_int64 (10 * Millisecond * 2 ^ Z.of_nat k).
Proof.
  intros Hk. unfold Go.is_int64, Go.minInt64, Go.maxInt64, Millisecond.
  assert (0 < 2 ^ Z.of_nat k) by (apply Z.pow_pos_nonneg; lia).
  assert (2 ^ Z.of_nat k <= 2 ^ 39) by (apply Z.pow_le_mono_r; lia).
  lia.
Qed.

Lemma incrementRetries_small (k : nat) :
  (k < 39)%nat ->
  incrementRetries (10 * Millisecond * 2 ^ Z.of_nat k) (Z.of_nat k)
  = (10 * Millisecond * 2 ^ Z.of_nat (S k), Z.of_nat (S k)).
Proof.
  intros Hk. unfold incrementRetries.
  replace (10 * Millisecond * 2 ^ Z.of_nat k * 2)
    with (10 * Millisecond * 2 ^ Z.of_nat (S k))
    by (rewrite Nat2Z.inj_succ, Z.pow_succ_r by lia; lia).
  rewrite int64_small by (apply backoff_fits; lia).
  rewrite int64_small
    by (unfold Go.is_int64, Go.minInt64, Go.maxInt64; lia).
  f_equal. lia.
Qed.

Lemma retriesAfter_small (k : nat) :
  (k <= 39)%nat ->
  retriesAfter k = (10 * Millisecond * 2 ^ Z.of_nat k, Z.of_nat k).
Proof.
  induction k as [|k IH]; intros Hk; [reflexivity|].
  change (retriesAfter (S k))
    with (incrementRetries (fst (retriesAfter k)) (snd (retriesAfter k))).
  rewrite IH by lia.
  cbn [fst snd]. apply incrementRetries_small. lia.
Qed.

(** A run of transient errors within the retries allowed and within the
    range of the delay. *)
Lemma listenLoop_temporaries (s : Server C) (k j : nat) :
  (j + k <= 39)%nat -> Z.of_nat (j + k) <= MaxRetries s + 1 ->
  listenLoop s (10 * Millisecond * 2 ^ Z.of_nat j) (Z.of_nat j)
    (temporaries C k)
  = (backoffSleeps C j k,
     Listening (10 * Millisecond * 2 ^ Z.of_nat (j + k)) (Z.of_nat (j + k))).
Proof.
  revert j. induction k as [|k IH]; intros j Hk Hmax.
  - cbn. by rewrite Nat.add_0_r.
  - unfold temporaries, backoffSleeps in *.
    cbn [replicate listenLoop listenTurnTCP seq fmap list_fmap].
    rewrite (proj2 (Z.ltb_ge (MaxRetries s) (Z.of_nat j))) by lia.
    rewrite incrementRetries_small by lia.
    rewrite IH by lia.
    replace (S j + k)%nat with (j + S k)%nat by lia. reflexivity.
Qed.

Lemma backoffSleeps_last (j k : nat) :
  last (backoffSleeps C j (S k))
  = Some (ActSleep (10 * Millisecond * 2 ^ Z.of_nat (j + S k))).
Proof.
  unfold backoffSleeps. rewrite seq_S, fmap_app. cbn [fmap list_fmap].
  rewrite last_snoc.
  replace (S j + k)%nat with (j + S k)%nat by lia. reflexivity.
Qed.

Lemma listenLoop_app (s : Server C) (evs1 evs2 : list (listenEvent C))
    (timeout tries timeout' tries' : Z) (acts : list (listenAction C)) :
  listenLoop s timeout tries evs1 = (acts, Listening timeout' tries') ->
  listenLoop s timeout tries (evs1 ++ evs2)
  = (acts ++ fst (listenLoop s timeout' tries' evs2),
     snd (listenLoop s timeout' tries' evs2)).
Proof.
  revert timeout tries acts.
  induction evs1 as [|ev evs1 IH]; intros timeout tries acts.
  - cbn. intros [= <- <- <-]. by destruct (listenLoop _ _ _ _).
  - cbn [app listenLoop].
    destruct (listenTurnTCP s timeout tries ev) as [t1 n1 a1| |]; try done.
    destruct (listenLoop s t1 n1 evs1) as [a2 st] eqn:Hrest.
    intros [= <- ->].
    rewrite (IH t1 n1 a2 Hrest). by rewrite app_assoc.
Qed.

(** C6, as the code has it.  From [defaultRetries], after [k] transient
    accept errors in a row, with [k] at most 39 and at most one more than
    [MaxRetries], the listener has slept 10ms * 2^i after the i-th error
    and its delay is 10ms * 2^k; a transient error met when the count is
    above [MaxRetries] stops the listener, which returns that error. *)
Theorem backoff_doubles (s : Server C) (k : nat) :
  (1 <= k <= 39)%nat -> Z.of_nat k <= MaxRetries s + 1 ->
  listenTCP s (temporaries C k)
  = (backoffSleeps C 0 k,
     Listening (10 * Millisecond * 2 ^ Z.of_nat k) (Z.of_nat k))
  /\ last (fst (listenTCP s (temporaries C k)))
     = Some (ActSleep (10 * Millisecond * 2 ^ Z.of_nat k))
  /\ (forall (e : error) (timeout tries : Z),
        MaxRetries s < tries ->
        listenTurnTCP s timeout tries (EvAccept (AcceptTemporary e))
        = TurnReturn (Some e))
  /\ (MaxRetries s < Z.of_nat k ->
      snd (listenTCP s (temporaries C k ++ temporaries C 1))
      = Returned (Some errTemporary)).
Proof.
  intros Hk Hmax.
  assert (listenTCP s (temporaries C k)
          = (backoffSleeps C 0 k,
             Listening (10 * Millisecond * 2 ^ Z.of_nat k) (Z.of_nat k)))
    as Hrun.
  { unfold listenTCP, defaultRetries.
    pose proof (listenLoop_temporaries s k 0) as Hloop.
    cbn [Nat.add Z.of_nat] in Hloop.
    replace (10 * Millisecond * 2 ^ 0) with (10 * Millisecond) in Hloop
      by (unfold Millisecond; lia).
    apply Hloop; lia. }
  split; [done|]. split.
  { rewrite Hrun. cbn [fst].
    destruct k as [|k']; [lia|]. by rewrite backoffSleeps_last. }
  split.
  { intros e timeout tries Htries. cbn [listenTurnTCP].
    by rewrite (proj2 (Z.ltb_lt (MaxRetries s) tries)). }
  intros Hover. unfold listenTCP, defaultRetries in *.
  rewrite (listenLoop_app _ _ _ _ _ _ _ _ Hrun).
  cbn [snd temporaries replicate listenLoop listenTurnTCP].
  by rewrite (proj2 (Z.ltb_lt (MaxRetries s) (Z.of_nat k))).
Qed.

End ListenFacts.

(** C6 on the server of the defaults, at eleven errors: the last sleep is
    10ms * 2^11 and the twelfth error stops the listener. *)
Lemma backoff_doubles_witness :
  last (fst (listenTCP serverChat (temporaries simConn 11)))
  = Some (ActSleep 20480000000)
  /\ snd (listenTCP serverChat
            (temporaries simConn 11 ++ temporaries simConn 1))
     = Returned (Some errTemporary).
Proof.
  assert (1 <= 11 <= 39)%nat as Hk by lia.
  assert (Z.of_nat 11 <= MaxRetries serverChat + 1) as Hmax
    by (vm_compute; discriminate).
  destruct (backoff_doubles serverChat 11 Hk Hmax) as (_ & Hlast & _ & Hstop).
  split; [exact Hlast|].
  apply Hstop. vm_compute. reflexivity.
Defined.

(** C6 as stated fails at k = 40: the doubled delay no longer fits the 64
    bits of a [time.Duration] and wraps to a negative value. *)
Lemma backoff_wraps_at_40 :
  retriesAfter 40 = (-7451627795949551616, 40)
  /\ fst (retriesAfter 40) <> 10 * Millisecond * 2 ^ 40
  /\ listenTCP serverPatient (temporaries simConn 40)
     = (backoffSleeps simConn 0 39 ++ [ActSleep (-7451627795949551616)],
        Listening (-7451627795949551616) 40).
Proof.
  split; [vm_compute; reflexivity|].
  split; [vm_compute; discriminate|].
  vm_compute. reflexivity.
Qed.

(** ** Shutdown *)

Section ShutdownFacts.

Lemma serving_app_Spawned (hs : list handlerPc) :
  serving (hs ++ [Spawned]) = serving hs.
Proof.
  induction hs as [|h hs IH]; [done|].
  destruct h; cbn [app serving]; by rewrite IH.
Qed.

Lemma serving_add (hs : list handlerPc) (i : nat) :
  hs !! i = Some Spawned ->
  serving (<[i := Serving]> hs) = serving hs + 1.
Proof.
  revert i. induction hs as [|h hs IH]; intros i Hi; [done|].
  destruct i as [|i].
  - injection Hi as ->. cbn. lia.
  - change (<[S i := Serving]> (h :: hs)) with (h :: <[i := Serving]> hs).
    change ((h :: hs) !! S i) with (hs !! i) in Hi.
    destruct h; cbn [serving]; rewrite (IH i Hi); lia.
Qed.

Lemma serving_done (hs : list handlerPc) (i : nat) :
  hs !! i = Some Serving ->
  serving (<[i := Closing]> hs) = serving hs - 1.
Proof.
  revert i. induction hs as [|h hs IH]; intros i Hi; [done|].
  destruct i as [|i].
  - injection Hi as ->. cbn. lia.
  - change (<[S i := Closing]> (h :: hs)) with (h :: <[i := Closing]> hs).
    change ((h :: hs) !! S i) with (hs !! i) in Hi.
    destruct h; cbn [serving]; rewrite (IH i Hi); lia.
Qed.

Lemma serving_close (hs : list handlerPc) (i : nat) :
  hs !! i = Some Closing ->
  serving (<[i := Finished]> hs) = serving hs.
Proof.
  revert i. induction hs as [|h hs IH]; intros i Hi; [done|].
  destruct i as [|i].
  - injection Hi as ->. by cbn.
  - change (<[S i := Finished]> (h :: hs)) with (h :: <[i := Finished]> hs).
    change ((h :: hs) !! S i) with (hs !! i) in Hi.
    destruct h; cbn [serving]; rewrite (IH i Hi); lia.
Qed.

Lemma serving_zero (hs : list handlerPc) :
  serving hs = 0 -> Forall (fun h => h <> Serving) hs.
Proof.
  assert (forall l, 0 <= serving l) as Hpos.
  { induction l as [|h l IH]; [done|]. destruct h; cbn [serving]; lia. }
  induction hs as [|h hs IH]; intros Hz; [constructor|].
  pose proof (Hpos hs).
  destruct h; cbn [serving] in Hz; try lia;
    (constructor; [discriminate|apply IH; lia]).
Qed.

Lemma step_inv (l : label) (w w' : world) :
  worldInv w -> step l w = Some w' -> worldInv w'.
Proof.
  intros (Hwg & Hclosed & Hret) Hstep. unfold worldInv.
  destruct l; cbn [step] in Hstep.
  - destruct (caller w) eqn:Hc; simplify_eq; cbn; intuition congruence.
  - destruct (listener w) eqn:Hl; try discriminate.
    destruct (caller w) eqn:Hc; simplify_eq; cbn; intuition congruence.
  - destruct (listener w) eqn:Hl; simplify_eq; cbn; intuition congruence.
  - destruct (listener w) eqn:Hl; simplify_eq; cbn.
    rewrite serving_app_Spawned. intuition congruence.
  - destruct (listener w) eqn:Hl; simplify_eq; cbn.
    split; [done|]. split; [intuition congruence|].
    intros Hc. split; [done|by right].
  - destruct (listener w) eqn:Hl; simplify_eq; cbn. intuition congruence.
  - destruct (listener w) eqn:Hl; simplify_eq; cbn.
    split; [done|]. split; [intuition congruence|].
    intros Hc. destruct (Hret Hc) as [? [?|?]]; congruence.
  - destruct (listener w) eqn:Hl; try discriminate.
    destruct (wg w =? 0); simplify_eq; cbn. intuition congruence.
  - destruct (listener w) eqn:Hl; try discriminate.
    destruct (caller w) eqn:Hc; simplify_eq; cbn. intuition.
  - destruct (handlers w !! i) as [[]|] eqn:Hi; simplify_eq; cbn.
    rewrite serving_add by done. intuition congruence.
  - destruct (handlers w !! i) as [[]|] eqn:Hi; simplify_eq; cbn.
    rewrite serving_done by done. intuition congruence.
  - destruct (handlers w !! i) as [[]|] eqn:Hi; simplify_eq; cbn.
    rewrite serving_close by done. intuition congruence.
  - destruct (listener w) eqn:Hl; simplify_eq; cbn.
    split; [done|]. split; [intuition congruence|].
    intros Hc. split; [done|by right].
Qed.

Lemma run_inv (sched : list label) (w w' : world) :
  worldInv w -> run sched w = Some w' -> worldInv w'.
Proof.
  revert w. induction sched as [|l sched IH]; intros w Hinv Hrun.
  - cbn in Hrun. by simplify_eq.
  - cbn [run] in Hrun. destruct (step l w) as [w1|] eqn:Hstep; [|done].
    eapply IH; [|done]. by eapply step_inv.
Qed.

Lemma initialWorld_inv : worldInv initialWorld.
Proof. unfold worldInv. cbn. intuition congruence. Qed.

(** Once the loop has taken the request it accepts nothing more. *)
Lemma step_pastSelect (l : label) (w w' : world) :
  pastSelect (listener w) = true -> step l w = Some w' ->
  pastSelect (listener w') = true
  /\ length (handlers w') = length (handlers w).
Proof.
  intros Hpast Hstep.
  destruct l; cbn [step] in Hstep;
    try (destruct (listener w) eqn:Hl; try discriminate;
         try (destruct (caller w) eqn:Hc);
         try (destruct (wg w =? 0));
         simplify_eq; cbn; done).
  - destruct (handlers w !! i) as [[]|] eqn:Hi; simplify_eq; cbn.
    by rewrite length_insert.
  - destruct (handlers w !! i) as [[]|] eqn:Hi; simplify_eq; cbn.
    by rewrite length_insert.
  - destruct (handlers w !! i) as [[]|] eqn:Hi; simplify_eq; cbn.
    by rewrite length_insert.
Qed.

Lemma run_pastSelect (sched : list label) (w w' : world) :
  pastSelect (listener w) = true -> run sched w = Some w' ->
  pastSelect (listener w') = true
  /\ length (handlers w') = length (handlers w).
Proof.
  revert w. induction sched as [|l sched IH]; intros w Hpast Hrun.
  - cbn in Hrun. by simplify_eq.
  - cbn [run] in Hrun. destruct (step l w) as [w1|] eqn:Hstep; [|done].
    destruct (step_pastSelect l w w1 Hpast Hstep) as [Hp1 Hlen1].
    destruct (IH w1 Hp1 Hrun) as [Hp' Hlen']. split; [done|congruence].
Qed.

(** C9, as the code has it.  In every world a schedule reaches: if
    [Shutdown] has returned, the listening socket is closed and the
    accept loop has ended (it has made its send on [didShutdown] and
    returns); once the loop has taken the shutdown request no connection
    is accepted any more; and [s.wg.Wait()] passes only when no handler
    is between its [s.wg.Add(1)] and its deferred [s.wg.Done()], that
    is, when every handler that has counted itself in has left its
    dispatch loop. *)
Theorem shutdown_guarantees (sched : list label) (w : world) :
  run sched initialWorld = Some w ->
  (caller w = CallerReturned ->
     listenerClosed w = true
     /\ (listener w = AtReturn \/ listener w = ListenerReturned))
  /\ (pastSelect (listener w) = true ->
      forall (later : list label) (w' : world),
        run later w = Some w' ->
        length (handlers w') = length (handlers w))
  /\ (forall w' : world,
        step WaitPasses w = Some w' ->
        Forall (fun h => h <> Serving) (handlers w)).
Proof.
  intros Hrun.
  destruct (run_inv sched initialWorld w initialWorld_inv Hrun)
    as (Hwg & Hclosed & Hret).
  split; [done|]. split.
  - intros Hpast later w' Hlater.
    by destruct (run_pastSelect later w w' Hpast Hlater).
  - intros w' Hstep. cbn [step] in Hstep.
    destruct (listener w); try discriminate.
    destruct (wg w =? 0) eqn:Hz; [|discriminate].
    apply serving_zero. apply Z.eqb_eq in Hz. congruence.
Qed.

End ShutdownFacts.

(** C9 on a schedule where the one connection is served to its end and
    closed before the wait: [Shutdown] returns with the socket closed
    and the handler finished. *)
Lemma shutdown_guarantees_witness :
  exists w : world,
    run schedDrained initialWorld = Some w
    /\ caller w = CallerReturned
    /\ listenerClosed w = true
    /\ handlers w = [Finished].
Proof.
  eexists. split; [reflexivity|]. split; [reflexivity|].
  split; [|reflexivity].
  apply (shutdown_guarantees schedDrained); reflexivity.
Defined.

(** C9 as stated fails, in four ways.  A connection that arrives while
    the loop is in its accept is accepted after [Shutdown] was called.
    As its handler has not yet counted itself in, the wait passes and
    [Shutdown] returns while that handler has still to run.  The same
    happens to a connection accepted before [Shutdown] was called whose
    handler has not reached its [s.wg.Add(1)].  And a handler that was
    serving when [Shutdown] was called has run [s.wg.Done()] but not yet
    [conn.Close()] when [Shutdown] returns: its connection is closed
    only afterwards. *)
Lemma accept_after_shutdown_called :
  (exists w : world,
     run schedLateAccept initialWorld = Some w
     /\ caller w = CallerSending
     /\ handlers w = [Spawned])
  /\ (exists w : world,
        run schedEarlyReturn initialWorld = Some w
        /\ caller w = CallerReturned
        /\ handlers w = [Spawned]
        /\ exists w' : world,
             step (HandlerAdd 0) w = Some w' /\ handlers w' = [Serving])
  /\ (exists w : world,
        run schedNotCounted initialWorld = Some w
        /\ caller w = CallerReturned
        /\ handlers w = [Spawned]
        /\ exists w' : world,
             step (HandlerAdd 0) w = Some w' /\ handlers w' = [Serving])
  /\ (exists w : world,
        run schedStillOpen initialWorld = Some w
        /\ caller w = CallerReturned
        /\ handlers w = [Closing]
        /\ exists w' : world,
             step (HandlerClose 0) w = Some w'
             /\ handlers w' = [Finished]).
Proof.
  split; [|split; [|split]].
  - eexists. repeat split; reflexivity.
  - eexists. split; [reflexivity|]. split; [reflexivity|].
    split; [reflexivity|]. eexists. split; reflexivity.
  - eexists. split; [reflexivity|]. split; [reflexivity|].
    split; [reflexivity|]. eexists. split; reflexivity.
  - eexists. split; [reflexivity|]. split; [reflexivity|].
    split; [reflexivity|]. eexists. split; reflexivity.
Qed.

(** ** More on the codec *)

Section CodecMore.

(** X1: the header always has [headerSize] bytes, and always decodes. *)
Theorem Encode_fixed_size (m : Metadata) :
  length (Encode m) = headerSize
  /\ snd (DecodeMetadata (Encode m)) = None.
Proof.
  split; [apply Encode_length|]. by rewrite DecodeMetadata_Encode.
Qed.

(** X2: the wire layout: the tag at offset 0, the three integers in
    little-endian order at offsets 1, 9 and 17, the timeout in whole
    milliseconds, and two string regions of 100 bytes each, whatever the
    strings are. *)
Theorem Encode_wire_layout (m : Metadata) :
  Encode m !!! 0%nat = EndpointType m
  /\ binary.Uint64 (Go.slice 1 9 (Encode m)) = UserID m mod 2 ^ 64
  /\ binary.Uint64 (Go.slice 9 17 (Encode m))
     = Z.quot (Timeout m) Millisecond mod 2 ^ 64
  /\ binary.Uint64 (Go.slice 17 25 (Encode m)) = BodySize m mod 2 ^ 64
  /\ length (fieldRegion FContentType (Encode m)) = headerContentTypeSize
  /\ length (fieldRegion FEndpoint (Encode m)) = headerEndpointSize.
Proof.
  rewrite !Encode_regions, !field_length.
  rewrite Encode_layout. unfold Go.slice.
  cbn [le64 app drop take Nat.sub lookup_total list_lookup_total].
  rewrite !take_0.
  fold (le64 (Go.uint64 (UserID m))).
  fold (le64 (Go.uint64 (Z.quot (Timeout m) Millisecond))).
  fold (le64 (Go.uint64 (BodySize m))).
  rewrite !Uint64_le64. unfold Go.uint64. rewrite !Z.mod_mod by lia.
  done.
Qed.

(** X3: the integers come back whatever the strings are; the timeout comes
    back cut to whole milliseconds, towards zero. *)
Theorem decode_encode_numbers (m : Metadata) :
  Go.is_int64 (UserID m) -> Go.is_int64 (BodySize m) ->
  Go.is_int64 (Timeout m) ->
  let m' := fst (DecodeMetadata (Encode m)) in
  EndpointType m' = EndpointType m
  /\ UserID m' = UserID m
  /\ BodySize m' = BodySize m
  /\ Timeout m' = Millisecond * Z.quot (Timeout m) Millisecond
  /\ Z.abs (Timeout m') <= Z.abs (Timeout m)
  /\ Z.abs (Timeout m - Timeout m') < Millisecond.
Proof.
  intros Hu Hb Ht m'. subst m'. rewrite DecodeMetadata_Encode.
  cbn [fst EndpointType UserID BodySize Timeout].
  rewrite !int64_uint64 by done.
  assert (Go.is_int64 (Z.quot (Timeout m) Millisecond)
          /\ Go.is_int64 (Millisecond * Z.quot (Timeout m) Millisecond)
          /\ Z.abs (Millisecond * Z.quot (Timeout m) Millisecond)
             <= Z.abs (Timeout m)
          /\ Z.abs (Timeout m
                    - Millisecond * Z.quot (Timeout m) Millisecond)
             < Millisecond) as (Hq & Hmq & Habs & Hrem).
  { unfold Go.is_int64, Go.minInt64, Go.maxInt64, Millisecond in *.
    pose proof (Z.quot_rem' (Timeout m) 1000000) as Hqr.
    pose proof (Z.rem_bound_abs (Timeout m) 1000000 ltac:(lia)) as Hra.
    destruct (Z.le_ge_cases 0 (Timeout m)) as [Hpos|Hneg].
    - pose proof (Z.mul_quot_le (Timeout m) 1000000 Hpos ltac:(lia)).
      lia.
    - pose proof (Z.mul_quot_ge (Timeout m) 1000000 Hneg ltac:(lia)).
      lia. }
  rewrite int64_uint64 by done. rewrite int64_small by done.
  done.
Qed.

Lemma decode_encode_numbers_witness :
  Timeout (fst (DecodeMetadata (Encode
    {| EndpointType := x07; UserID := -5; BodySize := 789;
       Timeout := -1500001; Endpoint := [xc3; xa9]; ContentType := [x00] |})))
  = -1000000.
Proof.
  apply (decode_encode_numbers
    {| EndpointType := x07; UserID := -5; BodySize := 789;
       Timeout := -1500001; Endpoint := [xc3; xa9]; ContentType := [x00] |});
    vm_compute; split; discriminate.
Defined.

End CodecMore.

Section ReaderFacts.

Lemma filled_full (buf got : list byte) :
  length got = length buf -> filled buf got = got.
Proof.
  intros Hlen. unfold filled. rewrite drop_ge by lia. apply app_nil_r.
Qed.

Lemma filled_zeros (n : nat) (got : list byte) :
  (length got <= n)%nat ->
  filled (replicate n x00) got = got ++ replicate (n - length got) x00.
Proof. intros Hlen. unfold filled. by rewrite drop_replicate. Qed.

Lemma bufferRead_some (b : list byte) (n : nat) :
  b <> [] ->
  io_Read (NewBuffer b) n = ((take n b, None), NewBuffer (drop n b)).
Proof. intros Hb. cbn. unfold bufferRead. cbn. by destruct b. Qed.

Lemma bufferRead_empty (n : nat) :
  n <> 0%nat -> io_Read (NewBuffer []) n = (([], Some EOF), NewBuffer []).
Proof. intros Hn. by destruct n. Qed.

Lemma length_filled (buf got : list byte) :
  length (filled buf got) = (length buf `max` length got)%nat.
Proof. unfold filled. rewrite length_app, length_drop. lia. Qed.

Lemma drop_nonempty (b : list byte) (k : nat) :
  (k < length b)%nat -> drop k b <> [].
Proof.
  intros Hk Hnil. apply (f_equal length) in Hnil.
  rewrite length_drop in Hnil. cbn in Hnil. lia.
Qed.

Lemma drop_empty (b : list byte) (k : nat) :
  (length b <= k)%nat -> drop k b = [].
Proof. apply drop_ge. Qed.

Lemma slice_app_l (lo hi : nat) (b pad : list byte) :
  (hi <= length b)%nat -> Go.slice lo hi (b ++ pad) = Go.slice lo hi b.
Proof.
  intros Hhi. unfold Go.slice.
  destruct (decide (lo <= hi)%nat) as [Hle|Hgt].
  - rewrite drop_app_le by lia. apply take_app_le. rewrite length_drop. lia.
  - replace (hi - lo)%nat with 0%nat by lia. by rewrite !take_0.
Qed.

Lemma DecodeMetadataReader_long (b : list byte) :
  (125 < length b)%nat ->
  DecodeMetadataReader (NewBuffer b)
  = ((fst (DecodeMetadata (b ++ replicate (225 - length b) x00)), None),
     NewBuffer (drop 225 b)).
Proof.
  intros Hlen. unfold DecodeMetadataReader. cbv zeta.
  rewrite !length_replicate. unfold headerEndpointSize.
  assert (b <> []) as Hb by (destruct b; [simpl in Hlen; exfalso; lia|done]).
  rewrite bufferRead_some by done. cbv beta iota zeta.
  cbn [EndpointType UserID BodySize Timeout Endpoint ContentType
       zeroMetadata].
  do 5 (rewrite ?filled_full
          by (rewrite ?length_take, ?length_drop, ?length_replicate; lia);
        rewrite ?length_take_le by (rewrite ?length_drop; lia);
        rewrite ?length_replicate;
        rewrite bufferRead_some
          by (rewrite ?drop_drop; apply drop_nonempty; lia);
        cbv beta iota zeta;
        cbn [EndpointType UserID BodySize Timeout Endpoint ContentType
             zeroMetadata];
        rewrite ?drop_drop).
  rewrite ?filled_full
    by (rewrite ?length_take, ?length_drop, ?length_replicate; lia).
  cbn [Nat.add].
  rewrite filled_zeros by (rewrite length_take; lia).
  unfold DecodeMetadata.
  rewrite (proj2 (Nat.ltb_ge _ _))
    by (rewrite length_app, length_replicate; unfold headerSize; lia).
  cbn [fst zeroMetadata EndpointType UserID BodySize Timeout Endpoint ContentType].
  unfold headerSize, headerContentTypeSize.
  rewrite (slice_app_l 1 9), (slice_app_l 9 17), (slice_app_l 17 25),
    (slice_app_l 25 (25 + 100)) by lia.
  unfold Go.slice.
  cbn [Nat.sub Nat.add].
  f_equal. f_equal. f_equal.
  - destruct b; [simpl in Hlen; exfalso; lia|reflexivity].
  - f_equal.
    rewrite drop_app_le by lia.
    rewrite length_take, length_drop.
    destruct (decide (225 <= length b)%nat).
    + replace (225 - length b)%nat with 0%nat by lia.
      replace (100 - (100 `min` (length b - 125)))%nat with 0%nat by lia.
      cbn [replicate]. by rewrite !app_nil_r.
    + rewrite (take_ge (drop 125 b)) by (rewrite length_drop; lia).
      rewrite take_ge
        by (rewrite length_app, length_drop, length_replicate; lia).
      do 2 f_equal. lia.
Qed.

Lemma DecodeMetadataReader_short (b : list byte) :
  (length b <= 125)%nat ->
  snd (fst (DecodeMetadataReader (NewBuffer b))) = Some EOF.
Proof.
  intros Hlen. unfold DecodeMetadataReader. cbv zeta.
  rewrite !length_replicate. unfold headerEndpointSize.
  destruct b as [|x b0] eqn:Hb; [reflexivity|]. rewrite <- Hb in *.
  assert (0 < length b)%nat as Hpos by (rewrite Hb; simpl; lia).
  clear Hb.
  rewrite bufferRead_some by (intros ->; simpl in Hpos; lia).
  cbv beta iota zeta.
  cbn [EndpointType UserID BodySize Timeout Endpoint ContentType
       zeroMetadata].
  do 5 (rewrite ?filled_full
          by (rewrite ?length_take, ?length_drop, ?length_replicate; lia);
        rewrite ?length_take_le by (rewrite ?length_drop; lia);
        rewrite ?length_replicate;
        match goal with
        | |- context [io_Read (NewBuffer (drop ?k b)) _] =>
            destruct (decide (length b <= k)%nat);
            [rewrite (drop_ge b k) by done;
             rewrite bufferRead_empty
               by (rewrite ?length_filled, ?length_take, ?length_drop,
                     ?length_replicate; lia);
             reflexivity|]
        end;
        rewrite bufferRead_some
          by (rewrite ?drop_drop; apply drop_nonempty; lia);
        cbv beta iota zeta;
        cbn [EndpointType UserID BodySize Timeout Endpoint ContentType
             zeroMetadata];
        rewrite ?drop_drop; cbn [Nat.add]).
  exfalso. lia.
Qed.

End ReaderFacts.
(** ** What decoding yields *)

Section DecodeMore.

Lemma trimLeftByte_head (s : list byte) (c : byte) :
  head (gostrings.trimLeftByte s c) <> Some c.
Proof.
  induction s as [|b s IH]; [done|]. cbn [gostrings.trimLeftByte].
  case_decide; [done|]. cbn. congruence.
Qed.

Lemma trimLeftByte_suffix (s : list byte) (c : byte) :
  exists k, gostrings.trimLeftByte s c = drop k s.
Proof.
  induction s as [|b s [k IH]]; [by exists 0%nat|].
  cbn [gostrings.trimLeftByte]. case_decide.
  - exists (S k). by rewrite IH.
  - by exists 0%nat.
Qed.

Lemma trimLeftByte_length (s : list byte) (c : byte) :
  (length (gostrings.trimLeftByte s c) <= length s)%nat.
Proof.
  destruct (trimLeftByte_suffix s c) as [k ->]. rewrite length_drop. lia.
Qed.

Lemma last_drop (s : list byte) (k : nat) (x : byte) :
  last (drop k s) = Some x -> last s = Some x.
Proof.
  intros Hl. rewrite <- (take_drop k s). rewrite last_app, Hl. done.
Qed.

Lemma trimRightByte_last (s : list byte) (c : byte) :
  last (gostrings.trimRightByte s c) <> Some c.
Proof.
  unfold gostrings.trimRightByte. rewrite last_reverse.
  apply trimLeftByte_head.
Qed.

Lemma Trim_ends (s : list byte) :
  nul_free_ends (gostrings.Trim s x00)
  /\ (length (gostrings.Trim s x00) <= length s)%nat.
Proof.
  unfold gostrings.Trim, nul_free_ends. split; [split|].
  - apply trimLeftByte_head.
  - destruct (trimLeftByte_suffix (gostrings.trimRightByte s x00) x00)
      as [k ->].
    intros Hl. apply last_drop in Hl.
    by apply (trimRightByte_last s x00).
  - etrans; [apply trimLeftByte_length|].
    unfold gostrings.trimRightByte. rewrite length_reverse.
    etrans; [apply trimLeftByte_length|]. by rewrite length_reverse.
Qed.

(** X4: whatever the buffer, the strings [DecodeMetadata] returns have no
    NUL byte at either end and fit the width of their field. *)
Theorem decoded_strings_trimmed (bytes : list byte) (f : stringField) :
  nul_free_ends (fieldOf f (fst (DecodeMetadata bytes)))
  /\ (length (fieldOf f (fst (DecodeMetadata bytes))) <= fieldWidth f)%nat.
Proof.
  unfold DecodeMetadata.
  destruct (length bytes <? headerSize)%nat.
  { destruct f; cbn; unfold nul_free_ends; cbn; repeat split; try done; lia. }
  destruct f; cbn [fst fieldOf ContentType Endpoint fieldWidth].
  - destruct (Trim_ends (Go.slice 25 (25 + headerContentTypeSize) bytes))
      as [Hends Hlen].
    split; [done|]. etrans; [exact Hlen|].
    unfold Go.slice. rewrite length_take. lia.
  - destruct (Trim_ends (Go.slice 125 headerSize bytes)) as [Hends Hlen].
    split; [done|]. etrans; [exact Hlen|].
    unfold Go.slice, headerSize, headerEndpointSize. rewrite length_take. lia.
Qed.

(** X5: [DecodeMetadata] looks at the first [headerSize] bytes only. *)
Theorem DecodeMetadata_ignores_tail (header tail : list byte) :
  (headerSize <= length header)%nat ->
  DecodeMetadata (header ++ tail) = DecodeMetadata header.
Proof.
  intros Hlen. unfold DecodeMetadata.
  rewrite (proj2 (Nat.ltb_ge (length (header ++ tail)) headerSize))
    by (rewrite length_app; lia).
  rewrite (proj2 (Nat.ltb_ge (length header) headerSize)) by done.
  unfold headerSize, headerContentTypeSize in *.
  rewrite !slice_app_l by lia.
  rewrite lookup_total_app_l by lia. reflexivity.
Qed.

Lemma DecodeMetadata_ignores_tail_witness :
  DecodeMetadata (Encode metaEcho ++ str "hello")
  = DecodeMetadata (Encode metaEcho).
Proof.
  apply (DecodeMetadata_ignores_tail (Encode metaEcho) (str "hello")).
  vm_compute. lia.
Defined.

(** X6: on a [bytes.Buffer] that holds a whole header, the two decoders
    agree, and the reader is left after the header. *)
Theorem DecodeMetadataReader_agrees (b : list byte) :
  (headerSize <= length b)%nat ->
  fst (DecodeMetadataReader (NewBuffer b)) = DecodeMetadata b
  /\ unread (snd (DecodeMetadataReader (NewBuffer b))) = drop headerSize b.
Proof.
  intros Hlen. unfold headerSize in *.
  rewrite DecodeMetadataReader_long by lia.
  replace (225 - length b)%nat with 0%nat by lia.
  cbn [replicate fst snd unread]. rewrite app_nil_r.
  split; [|done].
  unfold DecodeMetadata.
  by rewrite (proj2 (Nat.ltb_ge (length b) headerSize)).
Qed.

Lemma DecodeMetadataReader_agrees_witness :
  fst (DecodeMetadataReader (NewBuffer (Encode metaEcho ++ str "hello")))
  = DecodeMetadata (Encode metaEcho ++ str "hello").
Proof.
  apply (DecodeMetadataReader_agrees (Encode metaEcho ++ str "hello")).
  vm_compute. lia.
Defined.

(** X7: on a shorter buffer they differ.  [DecodeMetadata] fails with
    [io.EOF]; [DecodeMetadataReader] fails with [io.EOF] only when the
    buffer ends before the last read starts, that is with at most 125
    bytes; with 126 to 224 bytes it returns a nil error and the metadata
    of the buffer padded with zero bytes. *)
Theorem DecodeMetadataReader_short_buffer (b : list byte) :
  (length b < headerSize)%nat ->
  DecodeMetadata b = (zeroMetadata, Some EOF)
  /\ ((length b <= 125)%nat ->
      snd (fst (DecodeMetadataReader (NewBuffer b))) = Some EOF)
  /\ ((125 < length b)%nat ->
      fst (DecodeMetadataReader (NewBuffer b))
      = (fst (DecodeMetadata
                (b ++ replicate (headerSize - length b) x00)), None)).
Proof.
  intros Hlen. split; [|split].
  - unfold DecodeMetadata.
    by rewrite (proj2 (Nat.ltb_lt (length b) headerSize)).
  - apply DecodeMetadataReader_short.
  - intros Hlong. by rewrite DecodeMetadataReader_long.
Qed.

Lemma DecodeMetadataReader_short_buffer_witness :
  fst (DecodeMetadataReader (NewBuffer (take 130 (Encode metaEcho))))
  = ({| EndpointType := EndpointRequest; UserID := 123; BodySize := 5;
        Timeout := 456 * Millisecond; Endpoint := str "echo";
        ContentType := str "text/plain" |}, None).
Proof.
  destruct (DecodeMetadataReader_short_buffer (take 130 (Encode metaEcho)))
    as (_ & _ & Hlong); [vm_compute; lia|].
  rewrite Hlong by (vm_compute; lia). vm_compute. reflexivity.
Defined.

End DecodeMore.

(** ** The wrapper on the simulated connection *)

Section SimFacts.

Lemma roundtrip_wellformed (m : Metadata) :
  Go.is_int64 (UserID m) -> Go.is_int64 (BodySize m) ->
  Go.is_int64 (Timeout m) -> (Millisecond | Timeout m) ->
  (length (Endpoint m) <= headerEndpointSize)%nat ->
  (length (ContentType m) <= headerContentTypeSize)%nat ->
  ascii_only (Endpoint m) -> ascii_only (ContentType m) ->
  nul_free_ends (Endpoint m) -> nul_free_ends (ContentType m) ->
  fst (DecodeMetadata (Encode m)) = m.
Proof.
  intros Hu Hb Ht Hms Hle Hlc Hae Hac Hne Hnc.
  rewrite DecodeMetadata_Encode.
  rewrite !int64_uint64, Timeout_roundtrip, !field_roundtrip by done.
  by destruct m.
Qed.

(** A read that finds a segment. *)
Lemma Read_sim (c : Client simConn) (buf seg : list byte)
    (rest : list (list byte)) :
  closed c = false -> isClosed (conn c) = false ->
  inbox (conn c) = seg :: rest -> seg <> [] -> buf <> [] ->
  Read c buf
  = ((filled buf (take (length buf) seg),
      Z.of_nat (length (take (length buf) seg)), None),
     withConn c
       {| inbox := match drop (length buf) seg with
                   | [] => rest
                   | more => more :: rest
                   end;
          ending := ending (conn c); isClosed := false;
          calls := calls (conn c) ++ [CallRead (length buf)] |}).
Proof.
  intros Hc Hk Hin Hseg Hbuf. unfold Read. rewrite Hc.
  cbn [conn_Read simConn_NetConn]. unfold simRead.
  cbn [logCall isClosed inbox ending calls]. rewrite Hk, Hin.
  destruct buf as [|x buf]; [done|]. cbn [length Nat.eqb].
  destruct seg as [|y seg]; [done|]. reflexivity.
Qed.

(** A read into a buffer of no bytes. *)
Lemma Read_sim_nothing (c : Client simConn) :
  closed c = false -> isClosed (conn c) = false ->
  Read c []
  = (([], 0, None), withConn c (logCall (conn c) (CallRead 0))).
Proof.
  intros Hc Hk. unfold Read. rewrite Hc.
  cbn [conn_Read simConn_NetConn length]. unfold simRead.
  cbn [logCall isClosed]. rewrite Hk. reflexivity.
Qed.

(** [ReadMeta] when the segment at the head of the stream starts with a
    whole header. *)
Lemma ReadMeta_sim_header (c : Client simConn) (hdr tail : list byte)
    (rest : list (list byte)) :
  closed c = false -> isClosed (conn c) = false ->
  inbox (conn c) = (hdr ++ tail) :: rest -> length hdr = headerSize ->
  ReadMeta c
  = ((fst (DecodeMetadata hdr), None),
     withConn c
       {| inbox := match tail with [] => rest | _ => tail :: rest end;
          ending := ending (conn c); isClosed := false;
          calls := calls (conn c) ++ [CallRead headerSize] |}).
Proof.
  intros Hc Hk Hin Hlen. unfold ReadMeta.
  assert (hdr ++ tail <> []) as Hne by (by destruct hdr).
  assert (replicate headerSize x00 <> []) as Hbuf by done.
  rewrite (Read_sim c _ (hdr ++ tail) rest Hc Hk Hin Hne Hbuf).
  rewrite length_replicate.
  rewrite take_app_length' by done. rewrite drop_app_length' by done.
  rewrite filled_full by (by rewrite length_replicate).
  unfold DecodeMetadata.
  rewrite (proj2 (Nat.ltb_ge (length hdr) headerSize)) by lia.
  cbn [fst]. by destruct tail.
Qed.

(** [ReadBody] when the body is what is left of that segment. *)
Lemma ReadBody_sim_body (c : Client simConn) (meta : Metadata)
    (body : list byte) (rest : list (list byte)) :
  closed c = false -> isClosed (conn c) = false ->
  BodySize meta = Z.of_nat (length body) ->
  inbox (conn c) = match body with [] => rest | _ => body :: rest end ->
  ReadBody c meta
  = Go.Returns
      ((body, None),
       withConn c
         {| inbox := rest; ending := ending (conn c); isClosed := false;
            calls := calls (conn c) ++ [CallRead (length body)] |}).
Proof.
  intros Hc Hk Hsize Hin. unfold ReadBody.
  rewrite make_bytes_nonneg by lia. rewrite Hsize, Nat2Z.id.
  destruct body as [|y body].
  - cbn [length replicate]. rewrite Read_sim_nothing by done.
    unfold logCall. rewrite Hin, Hk. reflexivity.
  - assert (replicate (length (y :: body)) x00 <> []) as Hbuf by done.
    rewrite (Read_sim c _ (y :: body) rest Hc Hk Hin ltac:(done) Hbuf).
    rewrite length_replicate.
    rewrite take_ge, drop_ge by done.
    rewrite filled_full by (by rewrite length_replicate).
    reflexivity.
Qed.

End SimFacts.
(** ** Frames *)

Section FrameFacts.

Lemma frameMeta_roundtrip (name body : list byte) :
  wireName name -> Z.of_nat (length body) <= Go.maxInt64 ->
  fst (DecodeMetadata (Encode (frameMeta name body))) = frameMeta name body
  /\ BodySize (frameMeta name body) = Z.of_nat (length body).
Proof.
  intros (Ha & Hn & Hl) Hbody.
  assert (Go.is_int64 (Z.of_nat (length body))) as Hint
    by (unfold Go.is_int64, Go.minInt64, Go.maxInt64 in *; lia).
  split; [|by apply int64_small].
  apply roundtrip_wellformed; cbn [frameMeta UserID BodySize Timeout
    Endpoint ContentType]; try done.
  - rewrite int64_small by done. done.
  - by exists 0.
  - cbn. unfold headerContentTypeSize. lia.
  - constructor.
Qed.

(** X8: what [WriteData] sends in one segment, [ReadData] reads back: the
    one [Write] carries the header and the body, [headerSize + len(body)]
    bytes, and the reader gets the endpoint name and the body. *)
Theorem WriteData_ReadData (name body : list byte) (k : simConn) :
  wireName name -> Z.of_nat (length body) <= Go.maxInt64 ->
  isClosed k = false ->
  WriteData (NewClientConn k) name body
  = ((Z.of_nat (headerSize + length body), None),
     withConn (NewClientConn k)
       (logCall k (CallWrite (Encode (frameMeta name body) ++ body))))
  /\ exists c',
       ReadData (NewClientConn
                   (simDial [Encode (frameMeta name body) ++ body]))
       = Go.Returns ((frameMeta name body, body, None), c')
       /\ inbox (conn c') = []
       /\ calls (conn c') = [CallRead headerSize; CallRead (length body)].
Proof.
  intros Hname Hbody Hk.
  destruct (frameMeta_roundtrip name body Hname Hbody) as [Hrt Hsize].
  split.
  - unfold WriteData, Write. cbn [NewClientConn closed conn].
    cbn [conn_Write simConn_NetConn]. unfold simWrite.
    cbn [logCall isClosed]. rewrite Hk.
    fold (frameMeta name body).
    rewrite length_app, Encode_length. reflexivity.
  - unfold ReadData.
    rewrite (ReadMeta_sim_header _ (Encode (frameMeta name body)) body [])
      by (try done; apply Encode_length).
    rewrite Hrt.
    erewrite (ReadBody_sim_body _ (frameMeta name body) body []);
      [|done|done|done|by destruct body].
    eexists. split; [reflexivity|]. split; reflexivity.
Qed.

Lemma WriteData_ReadData_witness :
  exists c',
    ReadData (NewClientConn
                (simDial [Encode (frameMeta (str "echo") (str "hello"))
                          ++ str "hello"]))
    = Go.Returns ((frameMeta (str "echo") (str "hello"), str "hello", None),
                  c').
Proof.
  destruct (WriteData_ReadData (str "echo") (str "hello") (simDial []))
    as [_ (c' & Hread & _)].
  - split; [repeat constructor|]. split; [split; vm_compute; discriminate|].
    vm_compute. lia.
  - vm_compute. discriminate.
  - reflexivity.
  - by exists c'.
Defined.

End FrameFacts.

(** ** The wrapper, continued *)

Section ClientMore.

Context {C : Type} `{NetConn C}.

(** X9: the error of [ReadMeta] on an open wrapper is the error of its one
    [Read], never an error of decoding: after a read without error,
    however few bytes it got, the metadata is that of the buffer as the
    read left it. *)
Theorem ReadMeta_error_is_Read_error (c : Client C) :
  closed c = false ->
  ReadMeta c
  = (match snd (fst (conn_Read (conn c) headerSize)) with
     | Some e => (zeroMetadata, Some e)
     | None =>
       (fst (DecodeMetadata
               (filled (replicate headerSize x00)
                       (fst (fst (conn_Read (conn c) headerSize))))),
        None)
     end,
     withConn c (snd (conn_Read (conn c) headerSize))).
Proof.
  intros Hc. unfold ReadMeta, Read. rewrite Hc, length_replicate.
  pose proof (conn_Read_le (conn c) headerSize) as Hle.
  destruct (conn_Read (conn c) headerSize) as [[got err] k].
  cbn [fst snd] in *. destruct err as [e|]; [done|].
  unfold DecodeMetadata.
  rewrite (proj2 (Nat.ltb_ge _ headerSize))
    by (rewrite length_filled, length_replicate; lia).
  reflexivity.
Qed.

(** X10: after [Close] the wrapper is closed for good: the operations that
    test the flag fail with [errConnectionClosed] and leave the wrapper
    as [Close] left it, whatever the connection answered to the close. *)
Theorem after_Close_fails_fast (c : Client C) (b name : list byte)
    (meta : Metadata) (body : list byte * option error) :
  let c' := snd (Close c) in
  closed c' = true
  /\ Write c' b = ((0, Some errConnectionClosed), c')
  /\ WriteMeta c' meta = ((0, Some errConnectionClosed), c')
  /\ WriteData c' name b = ((0, Some errConnectionClosed), c')
  /\ WriteDataReader c' name body = ((0, Some errConnectionClosed), c')
  /\ Read c' b = ((b, 0, Some errConnectionClosed), c')
  /\ ReadMeta c' = ((zeroMetadata, Some errConnectionClosed), c')
  /\ ReadData c'
     = Go.Returns ((zeroMetadata, [], Some errConnectionClosed), c')
  /\ closed (snd (Close c')) = true.
Proof.
  intros c'.
  assert (closed c' = true) as Hc.
  { subst c'. unfold Close. cbn [conn].
    by destruct (conn_Close (conn c)). }
  destruct (closed_fails_fast c' Hc)
    as (HW & HWM & HWD & HWR & HR & HM & _ & HD).
  repeat split; try done.
  unfold Close. cbn [conn]. by destruct (conn_Close (conn c')).
Qed.

End ClientMore.

Lemma ReadMeta_error_is_Read_error_witness :
  fst (ReadMeta clientThreeBytes)
  = (fst (DecodeMetadata (str "hel" ++ replicate 222 x00)), None).
Proof.
  rewrite (ReadMeta_error_is_Read_error clientThreeBytes) by reflexivity.
  reflexivity.
Defined.

(** ** The registry and the dispatcher, continued *)

Section ServerMore.

Context {C : Type} `{NetConn C}.
Variable now : Z.

(** X11: registering in a map that is not nil: the name then finds the
    handler, every other name finds what it found before, and the other
    registry and the configuration are untouched. *)
Theorem registry_add_lookup (s : Server C) (name : gostring)
    (e : RequestEndpoint) (h : StreamingEndpoint C) :
  requestEndpoints s <> None -> streamingEndpoints s <> None ->
  (exists s',
     AddRequestEndpoint s name e = Go.Returns s'
     /\ mapLookup (requestEndpoints s') name = Some e
     /\ (forall other, other <> name ->
           mapLookup (requestEndpoints s') other
           = mapLookup (requestEndpoints s) other)
     /\ streamingEndpoints s' = streamingEndpoints s
     /\ MaxRetries s' = MaxRetries s /\ MaxTimeout s' = MaxTimeout s)
  /\ (exists s',
        AddStreamingEndpoint s name h = Go.Returns s'
        /\ mapLookup (streamingEndpoints s') name = Some h
        /\ (forall other, other <> name ->
              mapLookup (streamingEndpoints s') other
              = mapLookup (streamingEndpoints s) other)
        /\ requestEndpoints s' = requestEndpoints s
        /\ MaxRetries s' = MaxRetries s /\ MaxTimeout s' = MaxTimeout s).
Proof.
  intros Hreq Hstr.
  destruct (requestEndpoints s) as [rt|] eqn:Hr; [|done].
  destruct (streamingEndpoints s) as [st|] eqn:Hs; [|done].
  split.
  - unfold AddRequestEndpoint. rewrite Hr. cbn [mapAssign].
    eexists. split; [reflexivity|].
    cbn [requestEndpoints streamingEndpoints MaxRetries MaxTimeout mapLookup].
    split; [apply lookup_insert_eq|]. split; [|done].
    intros other Hne. by apply lookup_insert_ne.
  - unfold AddStreamingEndpoint. rewrite Hs. cbn [mapAssign].
    eexists. split; [reflexivity|].
    cbn [requestEndpoints streamingEndpoints MaxRetries MaxTimeout mapLookup].
    split; [apply lookup_insert_eq|]. split; [|done].
    intros other Hne. by apply lookup_insert_ne.
Qed.

Lemma dispatch_unroutable (s : Server C) (c c1 : Client C)
    (meta : Metadata) :
  ReadMeta c = ((meta, None), c1) ->
  (EndpointType meta <> EndpointRequest
   /\ EndpointType meta <> EndpointStream)
  \/ (EndpointType meta = EndpointRequest
      /\ mapLookup (requestEndpoints s) (Endpoint meta) = None)
  \/ (EndpointType meta = EndpointStream
      /\ mapLookup (streamingEndpoints s) (Endpoint meta) = None) ->
  dispatch now s c = Go.Returns (false, c1).
Proof.
  intros HMeta Hcase.
  unfold dispatch. rewrite HMeta.
  destruct Hcase as [[Hr Hs]|[[Hr Hl]|[Hs Hl]]].
  - by rewrite !decide_False.
  - rewrite decide_True by done.
    unfold handleRequestConn. by rewrite Hl.
  - rewrite decide_False by (rewrite Hs; discriminate).
    rewrite decide_True by done.
    unfold handleStreamingConn. by rewrite Hl.
Qed.

(** X12: a header the server cannot route ends the service of the connection
    at once: an endpoint type that is neither request nor stream, or a
    name that is not registered for its type.  The wrapper is left as
    [ReadMeta] left it: the body is not read and nothing is written. *)
Theorem dispatch_rejects (s : Server C) (c c1 : Client C) (meta : Metadata) :
  ReadMeta c = ((meta, None), c1) ->
  (EndpointType meta <> EndpointRequest
   /\ EndpointType meta <> EndpointStream)
  \/ (EndpointType meta = EndpointRequest
      /\ mapLookup (requestEndpoints s) (Endpoint meta) = None)
  \/ (EndpointType meta = EndpointStream
      /\ mapLookup (streamingEndpoints s) (Endpoint meta) = None) ->
  dispatch now s c = Go.Returns (false, c1)
  /\ forall fuel, serveLoop now (S fuel) s c = Go.Returns (Some c1).
Proof.
  intros HMeta Hcase.
  pose proof (dispatch_unroutable s c c1 meta HMeta Hcase) as Hd.
  split; [done|]. intros fuel. cbn [serveLoop]. by rewrite Hd.
Qed.

(** X13: on a server as [NewServer] makes it, no name is registered: reading
    the nil map of the stream handlers finds nothing (it does not panic),
    and whatever the first header is, the service of the connection ends
    with it. *)
Theorem NewServer_serves_nothing (protocol uri : gostring) (s : Server C)
    (c : Client C) :
  NewServer protocol uri = (Some s, None) ->
  (forall name, mapLookup (requestEndpoints s) name = None
                /\ mapLookup (streamingEndpoints s) name = None)
  /\ dispatch now s c = Go.Returns (false, snd (ReadMeta c)).
Proof.
  intros Hnew. destruct (NewServer_maps _ _ _ Hnew) as [Hreq Hstr].
  assert (forall name, mapLookup (requestEndpoints s) name = None
                       /\ mapLookup (streamingEndpoints s) name = None)
    as Hnone.
  { intros name. rewrite Hreq, Hstr. cbn. by rewrite lookup_empty. }
  split; [done|].
  destruct (ReadMeta c) as [[meta [e|]] c1] eqn:HMeta.
  { unfold dispatch. by rewrite HMeta. }
  cbn [snd]. destruct (Hnone (Endpoint meta)) as [Hr Hs].
  apply (dispatch_unroutable s c c1 meta HMeta).
  destruct (decide (EndpointType meta = EndpointRequest)); [by auto|].
  destruct (decide (EndpointType meta = EndpointStream)); by auto.
Qed.

End ServerMore.

Lemma registry_add_lookup_witness :
  exists s',
    AddStreamingEndpoint serverChat (str "message") closingStream
    = Go.Returns s'
    /\ mapLookup (streamingEndpoints s') (str "message") = Some closingStream.
Proof.
  destruct (registry_add_lookup serverChat (str "message") echoEndpoint
              closingStream) as [_ (s' & Hadd & Hlook & _)];
    [discriminate|discriminate|].
  by exists s'.
Defined.

Lemma dispatch_rejects_witness :
  exists c1 : Client simConn,
    dispatch 0 serverPatient (NewClientConn connChat)
    = Go.Returns (false, c1).
Proof.
  eexists.
  eapply (dispatch_rejects 0 serverPatient (NewClientConn connChat)).
  - vm_compute. reflexivity.
  - right. right. split; reflexivity.
Defined.

Lemma NewServer_serves_nothing_witness :
  exists s : Server simConn,
    NewServer ProtocolUnix (str "/tmp/srv.sock") = (Some s, None)
    /\ dispatch 0 s (NewClientConn connChat)
       = Go.Returns (false, snd (ReadMeta (NewClientConn connChat))).
Proof.
  eexists. split; [reflexivity|].
  eapply (NewServer_serves_nothing 0 ProtocolUnix (str "/tmp/srv.sock")).
  reflexivity.
Defined.

(** ** Serving on the simulated connection *)

Section ServeFacts.

Variable now : Z.

Lemma WriteData_sim (c : Client simConn) (name body : list byte) :
  closed c = false -> isClosed (conn c) = false ->
  WriteData c name body
  = ((Z.of_nat (headerSize + length body), None),
     withConn c
       (logCall (conn c) (CallWrite (Encode (frameMeta name body) ++ body)))).
Proof.
  intros Hc Hk. unfold WriteData, Write. rewrite Hc.
  cbn [conn_Write simConn_NetConn]. unfold simWrite.
  cbn [logCall isClosed]. rewrite Hk.
  fold (frameMeta name body).
  rewrite length_app, Encode_length. reflexivity.
Qed.

(** X14: a request that arrives in one segment, header and body, for a
    registered name.  The body is read and handed to the handler.  When
    the handler succeeds, one frame is written back, under the same name
    and with the handler's output as body, the deadline is set again if
    one is configured, and the loop goes on; when the handler fails,
    nothing is written and the service ends. *)
Theorem request_served (s : Server simConn) (m : Metadata)
    (body out : list byte) (h : RequestEndpoint) (r : option error) :
  EndpointType m = EndpointRequest ->
  Go.is_int64 (UserID m) -> Go.is_int64 (Timeout m) ->
  (Millisecond | Timeout m) ->
  BodySize m = Z.of_nat (length body) -> Go.is_int64 (BodySize m) ->
  wireName (Endpoint m) ->
  ascii_only (ContentType m) -> nul_free_ends (ContentType m) ->
  (length (ContentType m) <= headerContentTypeSize)%nat ->
  mapLookup (requestEndpoints s) (Endpoint m) = Some h ->
  h m body = (out, r) ->
  exists c',
    dispatch now s (NewClientConn (simDial [Encode m ++ body]))
    = Go.Returns (match r with None => true | Some _ => false end, c')
    /\ closed c' = false /\ inbox (conn c') = []
    /\ calls (conn c')
       = [CallRead headerSize; CallRead (length body)]
         ++ match r with
            | Some _ => []
            | None =>
              CallWrite (Encode (frameMeta (Endpoint m) out) ++ out)
              :: (if 0 <? MaxTimeout s
                  then [CallSetDeadline (now + MaxTimeout s)] else [])
            end.
Proof.
  intros Htype Hu Ht Hms Hsize Hb (Ha & Hn & Hl) Hac Hnc Hlc Hlook Hh.
  unfold dispatch.
  rewrite (ReadMeta_sim_header _ (Encode m) body [])
    by (try done; apply Encode_length).
  rewrite roundtrip_wellformed by done.
  rewrite decide_True by done.
  unfold handleRequestConn. rewrite Hlook.
  erewrite (ReadBody_sim_body _ m body []);
    [|done|done|done|by destruct body].
  rewrite Hh. destruct r as [e|].
  { eexists. split; [reflexivity|]. by repeat split. }
  rewrite WriteData_sim by done.
  unfold setDeadline, SetDeadline, newDeadline.
  destruct (0 <? MaxTimeout s).
  - eexists. split; [reflexivity|]. by repeat split.
  - eexists. split; [reflexivity|]. by repeat split.
Qed.

End ServeFacts.

(** The scenario of the echo endpoint: the request echo with the body
    hello gets the response echo with the body hello. *)
Lemma request_served_witness :
  exists c',
    dispatch 0 serverEcho
      (NewClientConn (simDial [Encode metaEcho ++ str "hello"]))
    = Go.Returns (true, c')
    /\ calls (conn c')
       = [CallRead 225; CallRead 5;
          CallWrite (Encode (frameMeta (str "echo") (str "hello"))
                     ++ str "hello")].
Proof.
  assert (Go.is_int64 123 /\ Go.is_int64 (456 * Millisecond)
          /\ Go.is_int64 5) as (H1 & H2 & H3)
    by (repeat split; vm_compute; discriminate).
  assert (wireName (str "echo")) as Hname.
  { split; [repeat constructor|].
    split; [split; vm_compute; discriminate|vm_compute; lia]. }
  assert (ascii_only (str "text/plain")) as Hct by repeat constructor.
  assert (nul_free_ends (str "text/plain")) as Hnf
    by (split; vm_compute; discriminate).
  destruct (request_served 0 serverEcho metaEcho (str "hello") (str "hello")
              echoEndpoint None eq_refl H1 H2 (ex_intro _ 456 eq_refl)
              eq_refl H3 Hname Hct Hnf ltac:(vm_compute; lia)
              eq_refl eq_refl)
    as (c' & Hd & _ & _ & Hcalls).
  exists c'. split; [exact Hd|exact Hcalls].
Defined.

(** ** The accept loop, continued *)

Section ListenMore.

Context {C : Type}.

Lemma temporaryCount_nonneg (evs : list (listenEvent C)) :
  0 <= temporaryCount evs.
Proof.
  induction evs as [|[| |[]] evs IH]; cbn [temporaryCount]; lia.
Qed.

Lemma listenLoop_budget (s : Server C) (evs : list (listenEvent C)) :
  Forall benignEvent evs -> MaxRetries s < 2 ^ 62 ->
  forall timeout tries,
    0 <= tries <= MaxRetries s + 1 ->
    (tries + temporaryCount evs <= MaxRetries s + 1 ->
     exists acts timeout',
       listenLoop s timeout tries evs
       = (acts, Listening timeout' (tries + temporaryCount evs)))
    /\ (MaxRetries s + 1 < tries + temporaryCount evs ->
        exists acts e,
          listenLoop s timeout tries evs = (acts, Returned (Some e))).
Proof.
  intros Hben Hmax.
  induction Hben as [|ev evs Hev Hevs IH]; intros timeout tries Htries.
  { cbn. split; [|lia]. intros _. do 2 eexists. by rewrite Z.add_0_r. }
  pose proof (temporaryCount_nonneg evs) as Hpos.
  destruct ev as [| |[k|e|e|e|e]]; try done; cbn [listenLoop listenTurnTCP
    temporaryCount].
  - destruct (IH timeout tries Htries) as [IH1 IH2]. split; intros Hc.
    + destruct (IH1 Hc) as (acts & t' & ->). by do 2 eexists.
    + destruct (IH2 Hc) as (acts & e & ->). by do 2 eexists.
  - destruct (IH timeout tries Htries) as [IH1 IH2]. split; intros Hc.
    + destruct (IH1 Hc) as (acts & t' & ->). by do 2 eexists.
    + destruct (IH2 Hc) as (acts & e' & ->). by do 2 eexists.
  - destruct (Z.ltb_spec (MaxRetries s) tries) as [Hover|Hunder].
    + split; [lia|]. intros _. by do 2 eexists.
    + unfold incrementRetries.
      rewrite (int64_small (tries + 1))
        by (unfold Go.is_int64, Go.minInt64, Go.maxInt64; lia).
      destruct (IH (Go.int64 (timeout * 2)) (tries + 1) ltac:(lia))
        as [IH1 IH2].
      split; intros Hc.
      * destruct (IH1 ltac:(lia)) as (acts & t' & ->).
        do 2 eexists. do 2 f_equal. lia.
      * destruct (IH2 ltac:(lia)) as (acts & e' & ->). by do 2 eexists.
  - destruct (IH timeout tries Htries) as [IH1 IH2]. split; intros Hc.
    + destruct (IH1 Hc) as (acts & t' & ->). by do 2 eexists.
    + destruct (IH2 Hc) as (acts & e' & ->). by do 2 eexists.
Qed.

(** X16: the retries are counted over the whole life of the listener, not per
    run of errors: accepted connections and timeouts between transient
    errors do not reset the count.  Over any events that do not end the
    loop by themselves, the loop is still listening, with the number of
    transient errors as its count, as long as that number is at most
    [MaxRetries + 1], and has returned an error once it is more. *)
Theorem retries_are_cumulative (s : Server C) (evs : list (listenEvent C)) :
  Forall benignEvent evs -> 0 <= MaxRetries s < 2 ^ 62 ->
  (temporaryCount evs <= MaxRetries s + 1 ->
   exists acts timeout,
     listenTCP s evs = (acts, Listening timeout (temporaryCount evs)))
  /\ (MaxRetries s + 1 < temporaryCount evs ->
      exists acts e, listenTCP s evs = (acts, Returned (Some e))).
Proof.
  intros Hben [Hmin Hmax]. unfold listenTCP, defaultRetries.
  destruct (listenLoop_budget s evs Hben Hmax (10 * Millisecond) 0
              ltac:(lia)) as [H1 H2].
  by rewrite !Z.add_0_l in *.
Qed.

End ListenMore.

(** Twelve transient errors with a connection accepted after each: the
    listener of the defaults stops at the twelfth. *)
Lemma retries_are_cumulative_witness :
  exists acts e,
    listenTCP serverChat
      (concat (replicate 12
         [EvAccept (AcceptTemporary errTemporary);
          EvAccept (AcceptConn connChat)]))
    = (acts, Returned (Some e)).
Proof.
  apply (retries_are_cumulative serverChat).
  - repeat constructor.
  - vm_compute. split; [discriminate|reflexivity].
  - vm_compute. reflexivity.
Defined.

(** ** The dispatch loop ends *)

Section LoopEnds.

Variable now : Z.

Lemma takeSegment_pending (n : nat) (segs : list (list byte)) :
  match takeSegment n segs with
  | (Some got, rest) =>
    length (concat segs) = (length got + length (concat rest))%nat
    /\ (n <> 0%nat -> got <> [])
  | (None, rest) => rest = []
  end.
Proof.
  induction segs as [|seg segs IH]; [done|].
  destruct seg as [|b seg]; [exact IH|].
  cbn [takeSegment]. split.
  - change (concat ((b :: seg) :: segs)) with ((b :: seg) ++ concat segs).
    rewrite length_app.
    rewrite <- (take_drop n (b :: seg)) at 1. rewrite length_app.
    destruct (drop n (b :: seg)) as [|x more] eqn:Hd.
    + cbn [length]. lia.
    + change (concat ((x :: more) :: segs))
        with ((x :: more) ++ concat segs).
      rewrite length_app. lia.
  - intros Hn. destruct n; [done|]. done.
Qed.

(** A read never adds to what is still to arrive, and takes at least one
    byte when it fills a buffer without error. *)
Lemma Read_pending (c : Client simConn) (buf : list byte) :
  closed (snd (Read c buf)) = closed c
  /\ (pending (conn (snd (Read c buf))) <= pending (conn c))%nat
  /\ (snd (fst (Read c buf)) = None -> buf <> [] ->
      (pending (conn (snd (Read c buf))) < pending (conn c))%nat).
Proof.
  unfold Read. destruct (closed c) eqn:Hc; [cbn; by rewrite Hc|].
  cbn [conn_Read simConn_NetConn]. unfold simRead.
  cbn [logCall isClosed inbox ending calls].
  destruct (isClosed (conn c)); [cbn; by rewrite Hc|].
  destruct (length buf =? 0)%nat eqn:Hn.
  { cbn. rewrite Hc. split; [done|]. split; [done|].
    intros _ Hbuf. apply Nat.eqb_eq in Hn. by destruct buf. }
  apply Nat.eqb_neq in Hn.
  pose proof (takeSegment_pending (length buf) (inbox (conn c))) as Ht.
  destruct (takeSegment (length buf) (inbox (conn c))) as [[got|] rest].
  - destruct Ht as [Hlen Hgot]. cbn. rewrite Hc. unfold pending. cbn.
    split; [done|]. split; [lia|]. intros _ _.
    specialize (Hgot Hn). destruct got; [done|]. cbn in Hlen. lia.
  - subst rest. cbn. rewrite Hc. unfold pending. cbn.
    split; [done|]. split; [lia|]. done.
Qed.

Lemma ReadMeta_pending (c : Client simConn) :
  closed (snd (ReadMeta c)) = closed c
  /\ (pending (conn (snd (ReadMeta c))) <= pending (conn c))%nat
  /\ (snd (fst (ReadMeta c)) = None ->
      (pending (conn (snd (ReadMeta c))) < pending (conn c))%nat).
Proof.
  unfold ReadMeta.
  destruct (Read_pending c (replicate headerSize x00)) as (H1 & H2 & H3).
  destruct (Read c (replicate headerSize x00)) as [[[hdr n] err] c'].
  cbn [fst snd] in *. destruct err as [e|]; [done|].
  destruct (DecodeMetadata hdr) as [meta [[]|]]; cbn [fst snd];
    (split; [done|]); (split; [done|]); try done;
    intros _; by apply H3.
Qed.

Lemma ReadBody_pending (c c' : Client simConn) (meta : Metadata)
    (r : list byte * option error) :
  ReadBody c meta = Go.Returns (r, c') ->
  closed c' = closed c /\ (pending (conn c') <= pending (conn c))%nat.
Proof.
  unfold ReadBody. destruct (Go.make_bytes (BodySize meta)) as [buf|];
    [|done].
  destruct (Read_pending c buf) as (H1 & H2 & _).
  destruct (Read c buf) as [[[body n] err] c1]. cbn [fst snd] in *.
  destruct err as [[]|]; intros [= <- <-]; done.
Qed.

Lemma WriteData_pending (c : Client simConn) (name body : list byte) :
  closed (snd (WriteData c name body)) = closed c
  /\ pending (conn (snd (WriteData c name body))) = pending (conn c).
Proof.
  unfold WriteData, Write. destruct (closed c) eqn:Hc; [done|].
  cbn [conn_Write simConn_NetConn]. unfold simWrite.
  cbn [logCall isClosed]. by destruct (isClosed (conn c)).
Qed.

Lemma setDeadline_pending (s : Server simConn) (c : Client simConn) :
  closed (snd (setDeadline now s c)) = closed c
  /\ pending (conn (snd (setDeadline now s c))) = pending (conn c).
Proof.
  unfold setDeadline, SetDeadline. destruct (0 <? MaxTimeout s); [|done].
  cbn [conn_SetDeadline simConn_NetConn]. unfold simSetDeadline.
  cbn [logCall isClosed]. by destruct (isClosed (conn c)).
Qed.

Lemma handleRequestConn_pending (s : Server simConn) (meta : Metadata)
    (c c' : Client simConn) (r : option error) :
  handleRequestConn now s meta c = Go.Returns (r, c') ->
  (pending (conn c') <= pending (conn c))%nat.
Proof.
  unfold handleRequestConn.
  destruct (mapLookup (requestEndpoints s) (Endpoint meta)) as [h|];
    [|by intros [= <- <-]].
  destruct (ReadBody c meta) as [[[body err] c1]|] eqn:HB; [|done].
  destruct (ReadBody_pending _ _ _ _ HB) as [Hc1 Hp1].
  destruct err as [e|]; [by intros [= <- <-]|].
  destruct (h meta body) as [wbuf [e|]]; [by intros [= <- <-]|].
  destruct (WriteData_pending c1 (Endpoint meta) wbuf) as [Hc2 Hp2].
  destruct (WriteData c1 (Endpoint meta) wbuf) as [[n werr] c2].
  cbn [snd] in *.
  destruct werr as [e|]; [intros [= <- <-]; lia|].
  destruct (setDeadline_pending s c2) as [Hc3 Hp3].
  destruct (setDeadline now s c2) as [[e|] c3]; cbn [snd] in *;
    intros [= <- <-]; lia.
Qed.

Lemma dispatch_pending (s : Server simConn) (c c' : Client simConn) :
  (forall name, mapLookup (streamingEndpoints s) name = None) ->
  dispatch now s c = Go.Returns (true, c') ->
  (pending (conn c') < pending (conn c))%nat.
Proof.
  intros Hnone. unfold dispatch.
  destruct (ReadMeta_pending c) as (_ & _ & Hlt).
  destruct (ReadMeta c) as [[meta [e|]] c1]; [done|].
  cbn [fst snd] in Hlt. specialize (Hlt eq_refl).
  case_decide.
  - destruct (handleRequestConn now s meta c1) as [[[e|] c2]|] eqn:HR;
      try done.
    intros [= <-]. apply handleRequestConn_pending in HR. lia.
  - case_decide; [|done].
    unfold handleStreamingConn. by rewrite Hnone.
Qed.

(** X17: on a server without stream handlers the loop of [handleConn] ends on
    every finite stream: each turn that goes on has taken at least one
    byte from the connection, so more turns than there are bytes to
    arrive are never needed. *)
Theorem serveLoop_ends (s : Server simConn) (c : Client simConn)
    (fuel : nat) :
  (forall name, mapLookup (streamingEndpoints s) name = None) ->
  (pending (conn c) < fuel)%nat ->
  serveLoop now fuel s c <> Go.Returns None.
Proof.
  intros Hnone. revert c.
  induction fuel as [|fuel IH]; intros c Hfuel; [lia|].
  cbn [serveLoop].
  destruct (dispatch now s c) as [[[] c']|] eqn:Hd; try done.
  apply IH. apply (dispatch_pending s c c' Hnone) in Hd. lia.
Qed.

End LoopEnds.

Lemma serveLoop_ends_witness :
  serveLoop 0 231 serverEcho
    (NewClientConn (simDial [Encode metaEcho ++ str "hello"]))
  <> Go.Returns None.
Proof.
  apply (serveLoop_ends 0 serverEcho).
  - intros name. reflexivity.
  - vm_compute. lia.
Defined.

(** ** The wait group and the end of [Shutdown] *)

Section ShutdownMore.

Lemma serving_nonneg (hs : list handlerPc) : 0 <= serving hs.
Proof.
  induction hs as [|h hs IH]; [done|]. destruct h; cbn [serving]; lia.
Qed.

Lemma serving_app (hs1 hs2 : list handlerPc) :
  serving (hs1 ++ hs2) = serving hs1 + serving hs2.
Proof.
  induction hs1 as [|h hs1 IH]; [done|].
  destruct h; cbn [app serving]; lia.
Qed.

Lemma serving_Finished (n : nat) : serving (replicate n Finished) = 0.
Proof. induction n as [|n IH]; [done|]. exact IH. Qed.

Lemma run_app (s1 s2 : list label) (w : world) :
  run (s1 ++ s2) w = match run s1 w with
                     | Some w1 => run s2 w1
                     | None => None
                     end.
Proof.
  revert w. induction s1 as [|l s1 IH]; intros w; [done|].
  cbn [app run]. destruct (step l w); [apply IH|done].
Qed.

Lemma step_inStep (l : label) (w w' : world) :
  inStep (caller w) (listener w) = true -> step l w = Some w' ->
  inStep (caller w') (listener w') = true.
Proof.
  intros Hin Hstep. destruct l; cbn [step] in Hstep;
    try (destruct (caller w) eqn:Hc; destruct (listener w) eqn:Hl;
         try discriminate; try (destruct (wg w =? 0); try discriminate);
         simplify_eq; by cbn).
  - destruct (handlers w !! i) as [[]|]; simplify_eq. exact Hin.
  - destruct (handlers w !! i) as [[]|]; simplify_eq. exact Hin.
  - destruct (handlers w !! i) as [[]|]; simplify_eq. exact Hin.
Qed.

Lemma run_inStep (sched : list label) (w w' : world) :
  inStep (caller w) (listener w) = true -> run sched w = Some w' ->
  inStep (caller w') (listener w') = true.
Proof.
  revert w. induction sched as [|l sched IH]; intros w Hin Hrun.
  - cbn in Hrun. by simplify_eq.
  - cbn [run] in Hrun. destruct (step l w) as [w1|] eqn:Hstep; [|done].
    eapply IH; [|done]. by eapply step_inStep.
Qed.

(** Every handler can run to its end, whatever the caller and the loop
    are doing; the counter goes down by the handlers that were
    serving. *)
Lemma drain_runs (hs pre : list handlerPc) (w : world) :
  handlers w = pre ++ hs ->
  exists w',
    run (drainFrom (length pre) hs) w = Some w'
    /\ caller w' = caller w /\ listener w' = listener w
    /\ handlers w' = pre ++ replicate (length hs) Finished
    /\ wg w' = wg w - serving hs.
Proof.
  revert pre w. induction hs as [|h hs IH]; intros pre w Hw.
  { exists w. cbn. rewrite app_nil_r in *. repeat split; try done. lia. }
  assert (forall x : handlerPc, length (pre ++ [x]) = S (length pre)) as HS.
  { intros x. rewrite length_app. cbn. lia. }
  assert (forall x y (l : list handlerPc),
            <[length pre := y]> (pre ++ x :: l) = pre ++ y :: l) as Hins.
  { intros x y l. rewrite insert_app_r_alt by lia.
    by rewrite Nat.sub_diag. }
  assert (forall x (l : list handlerPc),
            (pre ++ x :: l) !! length pre = Some x) as Hlook.
  { intros x l. by apply list_lookup_middle. }
  assert (forall w0 : world,
            handlers w0 = pre ++ Closing :: hs ->
            exists w',
              run (HandlerClose (length pre) :: drainFrom (S (length pre)) hs)
                  w0 = Some w'
              /\ caller w' = caller w0 /\ listener w' = listener w0
              /\ handlers w' = pre ++ Finished :: replicate (length hs) Finished
              /\ wg w' = wg w0 - serving hs) as Hclose.
  { intros w0 Hw0.
    set (w1 := {| caller := caller w0; listener := listener w0;
                  handlers := (pre ++ [Finished]) ++ hs; wg := wg w0;
                  listenerClosed := listenerClosed w0 |}).
    assert (step (HandlerClose (length pre)) w0 = Some w1) as Hstep.
    { cbn [step]. rewrite Hw0, Hlook, Hins. unfold w1.
      by rewrite <- app_assoc. }
    destruct (IH (pre ++ [Finished]) w1 eq_refl)
      as (w' & Hrun & Hc & Hl & Hh & Hg).
    rewrite (HS Finished) in Hrun. exists w'.
    cbn [run]. rewrite Hstep. cbn in *.
    split; [done|]. split; [done|]. split; [done|].
    split; [by rewrite Hh, <- app_assoc|]. lia. }
  assert (forall w0 : world,
            handlers w0 = pre ++ Serving :: hs ->
            exists w',
              run (HandlerDone (length pre) :: HandlerClose (length pre)
                   :: drainFrom (S (length pre)) hs) w0 = Some w'
              /\ caller w' = caller w0 /\ listener w' = listener w0
              /\ handlers w' = pre ++ Finished :: replicate (length hs) Finished
              /\ wg w' = wg w0 - 1 - serving hs) as Hserv.
  { intros w0 Hw0.
    set (w1 := {| caller := caller w0; listener := listener w0;
                  handlers := pre ++ Closing :: hs; wg := wg w0 - 1;
                  listenerClosed := listenerClosed w0 |}).
    assert (step (HandlerDone (length pre)) w0 = Some w1) as Hstep.
    { cbn [step]. by rewrite Hw0, Hlook, Hins. }
    destruct (Hclose w1 eq_refl) as (w' & Hrun & Hc & Hl & Hh & Hg).
    exists w'. rewrite <- Hrun. cbn [run]. rewrite Hstep. cbn in *.
    split; [done|]. split; [done|]. split; [done|].
    split; [done|]. lia. }
  destruct h; cbn [drainFrom].
  - (* Spawned *)
    set (w1 := {| caller := caller w; listener := listener w;
                  handlers := pre ++ Serving :: hs; wg := wg w + 1;
                  listenerClosed := listenerClosed w |}).
    assert (step (HandlerAdd (length pre)) w = Some w1) as Hstep.
    { cbn [step]. by rewrite Hw, Hlook, Hins. }
    destruct (Hserv w1 eq_refl) as (w' & Hrun & Hc & Hl & Hh & Hg).
    exists w'. rewrite <- Hrun. cbn [run]. rewrite Hstep. cbn in *.
    split; [done|]. split; [done|]. split; [done|].
    split; [done|]. lia.
  - (* Serving *)
    destruct (Hserv w Hw) as (w' & Hrun & Hc & Hl & Hh & Hg).
    exists w'. cbn in *. split; [done|]. split; [done|]. split; [done|].
    split; [done|]. lia.
  - (* Closing *)
    destruct (Hclose w Hw) as (w' & Hrun & Hc & Hl & Hh & Hg).
    exists w'. cbn in *. split; [done|]. split; [done|]. split; [done|].
    split; [done|]. lia.
  - (* Finished *)
    destruct (IH (pre ++ [Finished]) w) as (w' & Hrun & Hc & Hl & Hh & Hg).
    { by rewrite Hw, <- app_assoc. }
    rewrite (HS Finished) in Hrun. exists w'. cbn in *.
    split; [done|]. split; [done|]. split; [done|].
    split; [by rewrite Hh, <- app_assoc|]. lia.
Qed.

(** X18: the counter of [s.wg] is never negative: in every world a
    schedule reaches it is the number of handlers between their
    [s.wg.Add(1)] and their deferred [s.wg.Done()]. *)
Theorem wait_group_counts_serving (sched : list label) (w : world) :
  run sched initialWorld = Some w ->
  wg w = serving (handlers w) /\ 0 <= wg w.
Proof.
  intros Hrun.
  destruct (run_inv sched initialWorld w initialWorld_inv Hrun) as [Hwg _].
  split; [done|]. rewrite Hwg. apply serving_nonneg.
Qed.

(** X19: once the accept loop has returned without sending on
    [didShutdown] (an accept that fails for good, a failing
    [SetDeadline], a failing [listener.Close()]), [Shutdown] never
    returns, whatever runs afterwards. *)
Theorem Shutdown_blocks_after_loop_returned
    (later : list label) (w w' : world) :
  listener w = ListenerReturned -> caller w <> CallerReturned ->
  run later w = Some w' ->
  caller w' <> CallerReturned.
Proof.
  intros Hl Hc. revert w Hl Hc.
  induction later as [|l later IH]; intros w Hl Hc Hrun.
  - cbn in Hrun. by simplify_eq.
  - cbn [run] in Hrun. destruct (step l w) as [w1|] eqn:Hstep; [|done].
    apply (IH w1); [| |done].
    + destruct l; cbn [step] in Hstep; rewrite ?Hl in Hstep;
        try discriminate.
      * destruct (caller w); by simplify_eq.
      * destruct (handlers w !! i) as [[]|]; by simplify_eq.
      * destruct (handlers w !! i) as [[]|]; by simplify_eq.
      * destruct (handlers w !! i) as [[]|]; by simplify_eq.
    + destruct l; cbn [step] in Hstep; rewrite ?Hl in Hstep;
        try discriminate.
      * destruct (caller w); by simplify_eq.
      * destruct (handlers w !! i) as [[]|]; by simplify_eq.
      * destruct (handlers w !! i) as [[]|]; by simplify_eq.
      * destruct (handlers w !! i) as [[]|]; by simplify_eq.
Qed.

(** X20: while the accept loop is running, [Shutdown] can always
    return: from every world a schedule reaches in which [listenTCP] has
    not returned, letting the handlers run to their ends and then the
    loop take the request, close the listener, pass the wait and notify
    ends with [Shutdown] returned. *)
Theorem Shutdown_can_return (sched : list label) (w : world) :
  run sched initialWorld = Some w ->
  listener w <> ListenerReturned ->
  exists w',
    run (drainFrom 0 (handlers w) ++ finish (caller w) (listener w)) w
      = Some w'
    /\ caller w' = CallerReturned
    /\ Forall (fun h => h = Finished) (handlers w').
Proof.
  intros Hrun Hl.
  pose proof (run_inv sched initialWorld w initialWorld_inv Hrun)
    as (Hwg & _ & _).
  pose proof (run_inStep sched initialWorld w eq_refl Hrun) as Hin.
  destruct (drain_runs (handlers w) [] w eq_refl)
    as (w1 & Hdrain & Hc1 & Hl1 & Hh1 & Hg1).
  cbn [length app] in Hdrain, Hh1.
  rewrite run_app, Hdrain.
  assert (wg w1 = 0) as Hz by lia.
  assert (Forall (fun h => h = Finished) (handlers w1)) as Hfin.
  { rewrite Hh1. by apply Forall_replicate. }
  destruct w1 as [c1 l1 hs1 g1 lc1]. cbn in Hc1, Hl1, Hz, Hfin. subst.
  destruct (caller w), (listener w); try done; cbn;
    eexists; (split; [reflexivity|]); by cbn.
Qed.

End ShutdownMore.

Lemma wait_group_counts_serving_witness :
  wg (mkWorld CallerSending AtSelect [Serving; Spawned] 1 false) = 1
  /\ 0 <= 1.
Proof.
  apply (wait_group_counts_serving schedTwoOpen
           (mkWorld CallerSending AtSelect [Serving; Spawned] 1 false)).
  reflexivity.
Defined.

Lemma Shutdown_blocks_after_loop_returned_witness :
  run schedListenerDied initialWorld
    = Some (mkWorld CallerIdle ListenerReturned [] 0 true)
  /\ caller (mkWorld CallerSending ListenerReturned [] 0 true)
     <> CallerReturned.
Proof.
  split; [reflexivity|].
  apply (Shutdown_blocks_after_loop_returned [CallShutdown]
           (mkWorld CallerIdle ListenerReturned [] 0 true)).
  - reflexivity.
  - discriminate.
  - reflexivity.
Defined.

Lemma Shutdown_can_return_witness :
  exists w',
    run [HandlerDone 0; HandlerClose 0;
         HandlerAdd 1; HandlerDone 1; HandlerClose 1;
         Select; CloseListener; WaitPasses; Notify]
        (mkWorld CallerSending AtSelect [Serving; Spawned] 1 false)
      = Some w'
    /\ caller w' = CallerReturned
    /\ Forall (fun h => h = Finished) (handlers w').
Proof.
  apply (Shutdown_can_return schedTwoOpen
           (mkWorld CallerSending AtSelect [Serving; Spawned] 1 false)).
  - reflexivity.
  - discriminate.
Defined.

(** ** The handlers the accept loop starts *)

Section ListenServes.

Context {C : Type}.

Lemma listenLoop_started (s : Server C) (evs : list (listenEvent C)) :
  Forall benignEvent evs -> MaxRetries s < 2 ^ 62 ->
  forall timeout tries,
    0 <= tries <= MaxRetries s + 1 ->
    tries + temporaryCount evs <= MaxRetries s + 1 ->
    started (fst (listenLoop s timeout tries evs)) = omap handedOver evs.
Proof.
  intros Hben Hmax.
  induction Hben as [|ev evs Hev Hevs IH]; intros timeout tries Htries Hc;
    [done|].
  pose proof (temporaryCount_nonneg evs) as Hpos.
  destruct ev as [| |[k|e|e|e|e]]; try done;
    cbn [listenLoop listenTurnTCP temporaryCount] in *.
  - specialize (IH timeout tries Htries Hc).
    destruct (listenLoop s timeout tries evs) as [acts st].
    cbn in *. by rewrite IH.
  - specialize (IH timeout tries Htries Hc).
    destruct (listenLoop s timeout tries evs) as [acts st].
    cbn in *. by rewrite IH.
  - destruct (Z.ltb_spec (MaxRetries s) tries) as [Hover|Hunder]; [lia|].
    unfold incrementRetries.
    rewrite (int64_small (tries + 1))
      by (unfold Go.is_int64, Go.minInt64, Go.maxInt64; lia).
    specialize (IH (Go.int64 (timeout * 2)) (tries + 1) ltac:(lia)
                   ltac:(lia)).
    destruct (listenLoop s (Go.int64 (timeout * 2)) (tries + 1) evs)
      as [acts st].
    cbn in *. by rewrite IH.
  - specialize (IH timeout tries Htries Hc).
    destruct (listenLoop s timeout tries evs) as [acts st].
    cbn in *. by rewrite IH.
Qed.

(** X21: while the loop is listening, the handlers it has started are the
    connections it has accepted, one each and in their order; a timeout
    or a transient error starts none; and a [net.Error] that is neither
    falls through the [switch] to [go s.handleConn(conn)]: a handler is
    started on the nil connection and the loop goes on. *)
Theorem accepted_are_served (s : Server C) (evs : list (listenEvent C)) :
  Forall benignEvent evs -> 0 <= MaxRetries s < 2 ^ 62 ->
  temporaryCount evs <= MaxRetries s + 1 ->
  started (fst (listenTCP s evs)) = omap handedOver evs
  /\ exists timeout tries,
       snd (listenTCP s evs) = Listening timeout tries.
Proof.
  intros Hben Hmax Hc. unfold listenTCP, defaultRetries. split.
  - apply listenLoop_started; [done|lia|lia|lia].
  - destruct (listenLoop_budget s evs Hben ltac:(lia) (10 * Millisecond) 0
                ltac:(lia)) as [H1 _].
    destruct (H1 ltac:(lia)) as (acts & t' & ->). by do 2 eexists.
Qed.

End ListenServes.

Lemma accepted_are_served_witness :
  started (fst (listenTCP serverChat
                  [EvAccept (AcceptConn connChat);
                   EvAccept (AcceptTimeout (errNet "i/o timeout"));
                   EvAccept (AcceptNetError (errNet "protocol error"));
                   EvAccept (AcceptTemporary errTemporary);
                   EvAccept (AcceptConn (simDial []))]))
  = [Some connChat; None; Some (simDial [])]
  /\ exists timeout tries,
       snd (listenTCP serverChat
              [EvAccept (AcceptConn connChat);
               EvAccept (AcceptTimeout (errNet "i/o timeout"));
               EvAccept (AcceptNetError (errNet "protocol error"));
               EvAccept (AcceptTemporary errTemporary);
               EvAccept (AcceptConn (simDial []))])
       = Listening timeout tries.
Proof.
  apply (accepted_are_served serverChat
           [EvAccept (AcceptConn connChat);
            EvAccept (AcceptTimeout (errNet "i/o timeout"));
            EvAccept (AcceptNetError (errNet "protocol error"));
            EvAccept (AcceptTemporary errTemporary);
            EvAccept (AcceptConn (simDial []))]).
  - repeat constructor.
  - cbn. lia.
  - cbn. lia.
Defined.

(** ** The one close of a served connection *)

Section ClosedOnce.

Variable now : Z.

Lemma keptOpen_refl (k : simConn) : keptOpen k k.
Proof. split; [done|]. exists []. by rewrite app_nil_r. Qed.

Lemma keptOpen_trans (k1 k2 k3 : simConn) :
  keptOpen k1 k2 -> keptOpen k2 k3 -> keptOpen k1 k3.
Proof.
  intros [Hc1 (m1 & Hm1 & Hf1)] [Hc2 (m2 & Hm2 & Hf2)].
  split; [congruence|]. exists (m1 ++ m2).
  split; [by rewrite Hm2, Hm1, app_assoc|]. by apply Forall_app.
Qed.

Lemma keptOpen_logCall (k : simConn) (call : connCall) :
  call <> CallClose -> keptOpen k (logCall k call).
Proof.
  intros Hcall. split; [done|]. exists [call].
  split; [done|]. by constructor.
Qed.

Lemma keptOpen_same (k k1 k2 : simConn) :
  isClosed k2 = isClosed k1 -> calls k2 = calls k1 ->
  keptOpen k k1 -> keptOpen k k2.
Proof.
  intros Hc Hl [Hc1 (more & Hm & Hf)].
  split; [congruence|]. exists more. split; [congruence|done].
Qed.

Lemma Read_keptOpen (c : Client simConn) (buf : list byte) :
  keptOpen (conn c) (conn (snd (Read c buf))).
Proof.
  unfold Read. destruct (closed c); [apply keptOpen_refl|].
  cbn [conn_Read simConn_NetConn]. unfold simRead.
  pose proof (keptOpen_logCall (conn c) (CallRead (length buf))
                ltac:(discriminate)) as Hlog.
  destruct (isClosed (logCall (conn c) (CallRead (length buf)))) eqn:Hcl;
    [exact Hlog|].
  destruct (length buf =? 0)%nat; [exact Hlog|].
  destruct (takeSegment (length buf)
              (inbox (logCall (conn c) (CallRead (length buf)))))
    as [[got|] rest];
    (apply (keptOpen_same _ (logCall (conn c) (CallRead (length buf))));
     [by rewrite Hcl|done|exact Hlog]).
Qed.

Lemma ReadMeta_keptOpen (c : Client simConn) :
  keptOpen (conn c) (conn (snd (ReadMeta c))).
Proof.
  unfold ReadMeta.
  pose proof (Read_keptOpen c (replicate headerSize x00)) as HR.
  destruct (Read c (replicate headerSize x00)) as [[[hdr n] err] c'].
  cbn [snd] in HR. destruct err as [e|]; [exact HR|].
  destruct (DecodeMetadata hdr) as [meta [[]|]]; exact HR.
Qed.

Lemma ReadBody_keptOpen (c c' : Client simConn) (meta : Metadata)
    (r : list byte * option error) :
  ReadBody c meta = Go.Returns (r, c') -> keptOpen (conn c) (conn c').
Proof.
  unfold ReadBody. destruct (Go.make_bytes (BodySize meta)) as [buf|];
    [|done].
  pose proof (Read_keptOpen c buf) as HR.
  destruct (Read c buf) as [[[body n] err] c1]. cbn [snd] in HR.
  destruct err as [[]|]; intros [= <- <-]; exact HR.
Qed.

Lemma WriteData_keptOpen (c : Client simConn) (name body : list byte) :
  keptOpen (conn c) (conn (snd (WriteData c name body))).
Proof.
  unfold WriteData, Write. destruct (closed c); [apply keptOpen_refl|].
  cbn [conn_Write simConn_NetConn]. unfold simWrite.
  match goal with |- context [logCall (conn c) ?call] =>
    pose proof (keptOpen_logCall (conn c) call ltac:(discriminate)) as Hlog;
    destruct (isClosed (logCall (conn c) call)); exact Hlog
  end.
Qed.

Lemma setDeadline_keptOpen (s : Server simConn) (c : Client simConn) :
  keptOpen (conn c) (conn (snd (setDeadline now s c))).
Proof.
  unfold setDeadline, SetDeadline.
  destruct (0 <? MaxTimeout s); [|apply keptOpen_refl].
  cbn [conn_SetDeadline simConn_NetConn]. unfold simSetDeadline.
  match goal with |- context [logCall (conn c) ?call] =>
    pose proof (keptOpen_logCall (conn c) call ltac:(discriminate)) as Hlog;
    destruct (isClosed (logCall (conn c) call)); exact Hlog
  end.
Qed.

Lemma handleRequestConn_keptOpen (s : Server simConn) (meta : Metadata)
    (c c' : Client simConn) (r : option error) :
  handleRequestConn now s meta c = Go.Returns (r, c') ->
  keptOpen (conn c) (conn c').
Proof.
  unfold handleRequestConn.
  destruct (mapLookup (requestEndpoints s) (Endpoint meta)) as [h|];
    [|intros [= <- <-]; apply keptOpen_refl].
  destruct (ReadBody c meta) as [[[body err] c1]|] eqn:HB; [|done].
  pose proof (ReadBody_keptOpen _ _ _ _ HB) as H1.
  destruct err as [e|]; [by intros [= <- <-]|].
  destruct (h meta body) as [wbuf [e|]]; [by intros [= <- <-]|].
  pose proof (WriteData_keptOpen c1 (Endpoint meta) wbuf) as H2.
  destruct (WriteData c1 (Endpoint meta) wbuf) as [[n werr] c2].
  cbn [snd] in H2.
  destruct werr as [e|];
    [intros [= <- <-]; by apply (keptOpen_trans _ (conn c1))|].
  pose proof (setDeadline_keptOpen s c2) as H3.
  destruct (setDeadline now s c2) as [[e|] c3]; cbn [snd] in H3;
    intros [= <- <-];
    apply (keptOpen_trans _ (conn c1)); [done| |done|];
    by apply (keptOpen_trans _ (conn c2)).
Qed.

Lemma dispatch_keptOpen (s : Server simConn) (c c' : Client simConn)
    (again : bool) :
  (forall name, mapLookup (streamingEndpoints s) name = None) ->
  dispatch now s c = Go.Returns (again, c') ->
  keptOpen (conn c) (conn c').
Proof.
  intros Hnone. unfold dispatch.
  pose proof (ReadMeta_keptOpen c) as HM.
  destruct (ReadMeta c) as [[meta [e|]] c1]; cbn [snd] in HM;
    [by intros [= <- <-]|].
  case_decide.
  - destruct (handleRequestConn now s meta c1) as [[r c2]|] eqn:HR;
      [|done].
    apply handleRequestConn_keptOpen in HR.
    destruct r; intros [= <- <-]; by apply (keptOpen_trans _ (conn c1)).
  - case_decide; [|by intros [= <- <-]].
    unfold handleStreamingConn. rewrite Hnone. by intros [= <- <-].
Qed.

Lemma serveLoop_keptOpen (s : Server simConn) (fuel : nat)
    (c c' : Client simConn) :
  (forall name, mapLookup (streamingEndpoints s) name = None) ->
  serveLoop now fuel s c = Go.Returns (Some c') ->
  keptOpen (conn c) (conn c').
Proof.
  intros Hnone. revert c.
  induction fuel as [|fuel IH]; intros c; [done|].
  cbn [serveLoop].
  destruct (dispatch now s c) as [[[] c1]|] eqn:Hd; [| |done].
  - intros Hloop. apply (keptOpen_trans _ (conn c1)); [|by apply IH].
    by apply (dispatch_keptOpen s c c1 true).
  - intros [= <-]. by apply (dispatch_keptOpen s c c1 false).
Qed.

(** X15: on a server without stream handlers, [handleConn] on an open
    connection that delivers finitely many bytes ends, and when it
    returns it has closed the connection exactly once: the calls made
    are [RemoteAddr], then the reads, writes and deadlines of the
    service, none of them a [Close], then the deferred [Close], which
    finds the connection open, and [RemoteAddr] once more. *)
Theorem handleConn_closes_once (s : Server simConn) (fuel : nat)
    (k : simConn) :
  (forall name, mapLookup (streamingEndpoints s) name = None) ->
  isClosed k = false ->
  (pending k < fuel)%nat ->
  handleConn now fuel s k <> Go.Returns None
  /\ forall k' : simConn,
       handleConn now fuel s k = Go.Returns (Some k') ->
       isClosed k' = true
       /\ exists served,
            calls k'
            = calls k ++ [CallRemoteAddr] ++ served
              ++ [CallClose; CallRemoteAddr]
            /\ Forall (fun call => call <> CallClose) served.
Proof.
  intros Hnone Hopen Hfuel. unfold handleConn.
  cbn [conn_RemoteAddr simConn_NetConn]. unfold simRemoteAddr.
  set (k0 := logCall k CallRemoteAddr).
  pose proof (setDeadline_keptOpen s (NewClientConn k0)) as Hset.
  destruct (setDeadline_pending now s (NewClientConn k0)) as [_ Hpend].
  destruct (setDeadline now s (NewClientConn k0)) as [e c0].
  cbn [snd NewClientConn conn] in Hset, Hpend.
  assert (forall (n : nat) (c : Client simConn),
            (pending (conn c) < n)%nat ->
            serveLoop now n s c <> Go.Returns None) as Hends.
  { induction n as [|n IH]; intros c Hn; [lia|]. cbn [serveLoop].
    destruct (dispatch now s c) as [[[] c1]|] eqn:Hd; try done.
    apply IH. apply (dispatch_pending now s c c1 Hnone) in Hd. lia. }
  specialize (Hends fuel c0 ltac:(unfold pending in *; cbn in *; lia)).
  destruct (serveLoop now fuel s c0) as [[c1|]|] eqn:Hloop; try done.
  split; [done|]. intros k' [= <-].
  apply (serveLoop_keptOpen s fuel c0 c1 Hnone) in Hloop.
  destruct (keptOpen_trans _ _ _ Hset Hloop) as [Hc (served & Hcalls & Hf)].
  cbn [conn_Close simConn_NetConn]. unfold simClose.
  cbn [logCall isClosed]. rewrite Hc. cbn [k0 logCall isClosed].
  rewrite Hopen. cbn [snd logCall isClosed calls].
  split; [done|]. exists served. split; [|done].
  rewrite Hcalls. cbn [k0 logCall calls]. by rewrite <- !app_assoc.
Qed.

End ClosedOnce.

Lemma handleConn_closes_once_witness :
  handleConn 0 231 serverEcho (simDial [Encode metaEcho ++ str "hello"])
  <> Go.Returns None
  /\ forall k' : simConn,
       handleConn 0 231 serverEcho
         (simDial [Encode metaEcho ++ str "hello"]) = Go.Returns (Some k') ->
       isClosed k' = true
       /\ exists served,
            calls k'
            = calls (simDial [Encode metaEcho ++ str "hello"])
              ++ [CallRemoteAddr] ++ served ++ [CallClose; CallRemoteAddr]
            /\ Forall (fun call => call <> CallClose) served.
Proof.
  apply (handleConn_closes_once 0 serverEcho 231
           (simDial [Encode metaEcho ++ str "hello"])).
  - intros name. reflexivity.
  - reflexivity.
  - vm_compute. lia.
Defined.
